(** * study-net, [ip.c]: the IPv4 ingress path and interface addressing

    A shallow embedding of [ip.c] and the properties of its address codec
    ([ip_addr_pton], [ip_addr_ntop]), its interface registry
    ([ip_iface_alloc], [ip_iface_register], [ip_iface_select]), its
    receive handler ([ip_input]) and its header dump ([ip_dump]).

    Conventions.
    - A C integer is a [Z]; where the C type wraps, the wrap-around is
      written out.
    - The host is little endian (the Linux platform of the repository): a
      multi-byte object read through a [uint8_t *] shows its least significant
      byte first.
    - A [char *] is the list of characters stored from the pointer onwards;
      the terminating NUL of a C string is the end of the list (or a NUL
      character in it).  A pointer into the same string is a suffix of it,
      and two such pointers are equal when the suffixes have the same length.
    - A heap object is addressed by a [ptr]; [NULL] is [None]. *)

From Stdlib Require Import ZArith Lia List Ascii String Bool DecimalString.
From Stdlib.Strings Require Import Byte.
From stdpp Require Import base option list gmap.

Import ListNotations.
Open Scope Z_scope.

(** ** Bytes and machine integers *)

(** The value of a [uint8_t]. *)
Definition b2z (b : byte) : Z := Z.of_N (Byte.to_N b).

(** [((uint8_t * )&n)[i]] for a 32-bit [n] on the little-endian host. *)
Definition u8_get (n : Z) (i : Z) : Z := Z.land (Z.shiftr n (8 * i)) 0xff.

(** [((uint8_t * )&n)[i] = v]: byte [i] of [n] is replaced, the other three
    bytes are kept; the stored value is [v] truncated to 8 bits. *)
Definition u8_set (n : Z) (i : Z) (v : Z) : Z :=
  Z.lor (Z.land n (Z.lnot (Z.shiftl 0xff (8 * i))))
        (Z.shiftl (v mod 256) (8 * i)).

(** A [uint16_t] read from two consecutive bytes in host order. *)
Definition le16 (lo hi : byte) : Z := b2z lo + 256 * b2z hi.

(** A [uint32_t] read from four consecutive bytes in host order. *)
Definition le32 (b0 b1 b2 b3 : byte) : Z :=
  b2z b0 + 256 * b2z b1 + 65536 * b2z b2 + 16777216 * b2z b3.

(** ** libc: [isspace], [isdigit], [strtol] in base 10, [snprintf] *)

Definition NUL : ascii := ascii_of_nat 0.

(** [*p] for a [char *p]: past the last stored character stands the NUL. *)
Definition deref (p : list ascii) : ascii :=
  match p with
  | [] => NUL
  | c :: _ => c
  end.

(** [isspace] in the C locale: space, and the controls \t \n \v \f \r. *)
Definition isspace (c : ascii) : bool :=
  let k := nat_of_ascii c in
  Nat.eqb k 32 || (Nat.leb 9 k && Nat.leb k 13).

Definition isdigit (c : ascii) : bool :=
  let k := nat_of_ascii c in
  Nat.leb 48 k && Nat.leb k 57.

Definition digit_val (c : ascii) : Z := Z.of_nat (nat_of_ascii c) - 48.

Fixpoint skip_space (s : list ascii) : list ascii :=
  match s with
  | c :: r => if isspace c then skip_space r else s
  | [] => []
  end.

(** The digit scan of [strtol]: the value accumulated so far and the first
    character that is no digit. *)
Fixpoint scan_digits (acc : Z) (s : list ascii) : Z * list ascii :=
  match s with
  | c :: r => if isdigit c then scan_digits (acc * 10 + digit_val c) r else (acc, s)
  | [] => (acc, [])
  end.

Definition LONG_MAX : Z := 2 ^ 63 - 1.
Definition LONG_MIN : Z := - 2 ^ 63.

(** [strtol(s, &ep, 10)] as a pair (value, [ep]): leading white space, an
    optional sign, then at least one digit; the value saturates at
    [LONG_MIN] and [LONG_MAX] (LP64).  With no digit there is no conversion:
    the value is 0 and [ep] is [s] itself. *)
Definition strtol (s : list ascii) : Z * list ascii :=
  let s1 := skip_space s in
  let '(neg, s2) :=
    match s1 with
    | c :: r =>
        if Ascii.eqb c "-" then (true, r)
        else if Ascii.eqb c "+" then (false, r)
        else (false, s1)
    | [] => (false, s1)
    end in
  if isdigit (deref s2) then
    let '(v, ep) := scan_digits 0 s2 in
    (if neg then Z.max LONG_MIN (- v) else Z.min LONG_MAX v, ep)
  else (0, s).

(** [printf]'s [%d]. *)
Definition fmt_d (v : Z) : list ascii :=
  list_ascii_of_string (DecimalString.NilZero.string_of_int (Z.to_int v)).

(** [snprintf(p, size, ...)] where [out] is the complete formatted text and
    [mem] what is stored at [p] before the call: at most [size - 1]
    characters of [out] are stored, followed by a NUL; with [size = 0]
    nothing is stored.  What lies behind the NUL is kept. *)
Definition snprintf (mem : list ascii) (size : Z) (out : list ascii) : list ascii :=
  if size <=? 0 then mem
  else
    let w := take (Z.to_nat (size - 1)) out in
    w ++ NUL :: drop (S (length w)) mem.

(** The C string stored at a [char *]: the characters before the first NUL. *)
Fixpoint cstring (p : list ascii) : list ascii :=
  match p with
  | [] => []
  | c :: r => if Ascii.eqb c NUL then [] else c :: cstring r
  end.

(** ** Addresses: [ip_addr_pton], [ip_addr_ntop] *)

Definition IP_ADDR_ANY : Z := 0x00000000.
Definition IP_ADDR_BROADCAST : Z := 0xffffffff.

(** Modelled from the spec: [IP_ADDR_STR_LEN] of ip.h, which is not among the
    sources; the spec gives the longest rendering as 15 characters plus the
    terminator. *)
Definition IP_ADDR_STR_LEN : Z := 16.

(** The body of the [for (idx = 0; idx < 4; idx++)] loop of [ip_addr_pton],
    [k] iterations before the end; the result is the returned [int] and the
    object [n] points to. *)
Fixpoint pton_loop (k : nat) (idx : Z) (sp : list ascii) (n : Z) : Z * Z :=
  match k with
  | O => (0, n)
  | S k' =>
      let '(ret, ep) := strtol sp in
      if (ret <? 0) || (255 <? ret) then (-1, n)
      else if Nat.eqb (length ep) (length sp) then (-1, n)
      else if ((idx =? 3) && negb (Ascii.eqb (deref ep) NUL))
              || (negb (idx =? 3) && negb (Ascii.eqb (deref ep) "."))
      then (-1, n)
      else pton_loop k' (idx + 1) (tl ep) (u8_set n idx ret)
  end.

Definition ip_addr_pton (p : list ascii) (n : Z) : Z * Z := pton_loop 4 0 p n.

(** The text [snprintf] formats in [ip_addr_ntop]: ["%d.%d.%d.%d"]. *)
Definition ntop_text (n : Z) : list ascii :=
  fmt_d (u8_get n 0) ++ "."%char :: fmt_d (u8_get n 1) ++ "."%char ::
  fmt_d (u8_get n 2) ++ "."%char :: fmt_d (u8_get n 3).

(** [ip_addr_ntop(n, p, size)]: [p] is the address of the caller's buffer and
    [mem] its content; the result is the returned pointer and the content
    after the call. *)
Definition ip_addr_ntop (n : Z) (p : nat) (mem : list ascii) (size : Z)
  : nat * list ascii :=
  (p, snprintf mem size (ntop_text n)).

(** ** util: byte order and checksum *)

(** Modelled from the spec: [ntoh16] of util.h, which is not among the
    sources; the spec has 16-bit fields decoded from network order, which on
    the little-endian host swaps the two bytes of the value read. *)
Definition ntoh16 (v : Z) : Z :=
  Z.land (Z.lor (Z.shiftl v 8) (Z.shiftr v 8)) 0xffff.

(** One's-complement addition of two 16-bit values: the carry out of bit 15
    is added back in (end-around carry). *)
Definition add1c (a b : Z) : Z :=
  let s := a + b in
  if s <? 65536 then s else s - 65535.

(** The one's-complement sum of a byte sequence read as host-order 16-bit
    words; a trailing odd byte is added as it is. *)
Fixpoint sum1c (bs : list byte) (acc : Z) : Z :=
  match bs with
  | lo :: hi :: rest => sum1c rest (add1c acc (le16 lo hi))
  | [b] => add1c acc (b2z b)
  | [] => acc
  end.

(** The plain sum of the same words, with no carry folded back. *)
Fixpoint wsum (bs : list byte) : Z :=
  match bs with
  | lo :: hi :: rest => le16 lo hi + wsum rest
  | [b] => b2z b
  | [] => 0
  end.

(** Modelled from the spec: [cksum16(addr, count, init)] of util.c, which is
    not among the sources.  The spec's glossary: a 16-bit checksum computed by
    summing 16-bit words with end-around carry and inverting.  [count] is the
    number of bytes summed, from [addr] on; the spec does not give its C
    type, so it is taken as passed, with no truncation. *)
Definition cksum16 (addr : list byte) (count : Z) (init : Z) : Z :=
  (Z.lnot (sum1c (take (Z.to_nat count) addr) init)) mod 65536.

(** ** The header *)

(** [struct ip_hdr]; the 16- and 32-bit fields hold what the host reads at
    their offsets, byte order not yet converted. *)
Record ip_hdr := mk_ip_hdr {
  vhl : Z;
  tos : Z;
  total : Z;
  id : Z;
  offset : Z;
  ttl : Z;
  protocol : Z;
  sum : Z;
  src : Z;
  dst : Z
}.

Definition byte_at (data : list byte) (i : nat) : byte := nth i data "000"%byte.

(** [(struct ip_hdr * )data]. *)
Definition hdr_of (data : list byte) : ip_hdr :=
  let b := byte_at data in
  {| vhl := b2z (b 0%nat);
     tos := b2z (b 1%nat);
     total := le16 (b 2%nat) (b 3%nat);
     id := le16 (b 4%nat) (b 5%nat);
     offset := le16 (b 6%nat) (b 7%nat);
     ttl := b2z (b 8%nat);
     protocol := b2z (b 9%nat);
     sum := le16 (b 10%nat) (b 11%nat);
     src := le32 (b 12%nat) (b 13%nat) (b 14%nat) (b 15%nat);
     dst := le32 (b 16%nat) (b 17%nat) (b 18%nat) (b 19%nat) |}.

(** Modelled from the spec: [IP_HDR_SIZE_MIN] and [IP_VERSION_IPV4] of ip.h,
    which is not among the sources; the spec gives 20 bytes and version 4. *)
Definition IP_HDR_SIZE_MIN : Z := 20.
Definition IP_VERSION_IPV4 : Z := 4.

(** ** Diagnostics *)

Inductive log_arg :=
| arg_s (s : list ascii)
| arg_u (v : Z).

(** What a call leaves on the diagnostic channel, in order: the log macros
    with their format and arguments, and [ip_dump]'s header dump. *)
Inductive event :=
| errorf (fmt : string)
| warnf (fmt : string)
| infof (fmt : string) (args : list log_arg)
| debugf (fmt : string) (args : list log_arg)
| ip_dump (data : list byte) (len : Z).

(** ** Interfaces and devices *)

Definition ptr := nat.

(** [struct ip_iface]: the embedded [struct net_iface] (its [next] and
    [family]), then the fields of the IP interface. *)
Record ip_iface := mk_ip_iface {
  net_next : option ptr;
  family : Z;
  next : option ptr;
  unicast : Z;
  netmask : Z;
  broadcast : Z
}.

(** The objects [memory_alloc] handed out and [memory_free] has not taken
    back. *)
Abbreviation heap := (gmap ptr ip_iface).

(** [struct net_device], as far as ip.c reads and writes it. *)
Record net_device := mk_net_device {
  name : list ascii;
  dev_ifaces : option ptr
}.

(** The state ip.c works on: the heap and its file-scope [static struct
    ip_iface *ifaces]. *)
Record world := mk_world {
  objs : heap;
  ifaces : option ptr
}.

(** A zero-filled [struct ip_iface]. *)
Definition zero_iface : ip_iface :=
  {| net_next := None; family := 0; next := None;
     unicast := 0; netmask := 0; broadcast := 0 |}.

(** [*p] for a [struct ip_iface *p]. *)
Definition iface_at (h : heap) (p : ptr) : ip_iface := default zero_iface (h !! p).

(** The collaborators of ip.c that are not among the sources: the
    platform's allocator and the device layer (net.c).  ip.c is verified
    against every implementation of them.
    - [memory_alloc h] is the new object's address, [None] for [NULL]; the
      address is not one of a live object.
    - [net_device_add_iface h dev iface] is [None] when the call returns
      non-zero, and the heap and device it leaves otherwise.
    - [net_device_get_iface h dev family] is the returned pointer. *)
Class Collaborators := {
  memory_alloc : heap -> option ptr;
  memory_alloc_fresh : forall h p, memory_alloc h = Some p -> h !! p = None;
  NET_IFACE_FAMILY_IP : Z;
  net_device_add_iface : heap -> net_device -> ptr -> option (heap * net_device);
  net_device_get_iface : heap -> net_device -> Z -> option ptr
}.

Definition memory_free (h : heap) (p : ptr) : heap := delete p h.

Definition set_family (i : ip_iface) (v : Z) : ip_iface :=
  {| net_next := net_next i; family := v; next := next i;
     unicast := unicast i; netmask := netmask i; broadcast := broadcast i |}.

Definition set_next (i : ip_iface) (v : option ptr) : ip_iface :=
  {| net_next := net_next i; family := family i; next := v;
     unicast := unicast i; netmask := netmask i; broadcast := broadcast i |}.

Definition set_unicast (i : ip_iface) (v : Z) : ip_iface :=
  {| net_next := net_next i; family := family i; next := next i;
     unicast := v; netmask := netmask i; broadcast := broadcast i |}.

Definition set_netmask (i : ip_iface) (v : Z) : ip_iface :=
  {| net_next := net_next i; family := family i; next := next i;
     unicast := unicast i; netmask := v; broadcast := broadcast i |}.

Definition set_broadcast (i : ip_iface) (v : Z) : ip_iface :=
  {| net_next := net_next i; family := family i; next := next i;
     unicast := unicast i; netmask := netmask i; broadcast := v |}.

(** [p->field = v] on the heap. *)
Definition store (h : heap) (p : ptr) (f : ip_iface -> ip_iface) : heap :=
  <[p := f (iface_at h p)]> h.

(** [(uni & mask) | (~mask)] on [uint32_t]. *)
Definition broadcast_of (uni mask : Z) : Z :=
  Z.lor (Z.land uni mask) (Z.lnot mask mod 2 ^ 32).

(** The text of an address as the log macros print it: [ip_addr_ntop] into
    a local [char addr[IP_ADDR_STR_LEN]], read back as a C string. *)
Definition ntop_str (n : Z) : list ascii :=
  cstring (snd (ip_addr_ntop n 0%nat (repeat NUL (Z.to_nat IP_ADDR_STR_LEN)) IP_ADDR_STR_LEN)).

Section Ip.
Context `{Collaborators}.

(** [ip_iface_alloc(unicast, netmask)]: the returned pointer, the heap it
    leaves and the diagnostics.  The new object is taken as zero-filled; ip.c
    itself stores only its family and its three addresses.  The locals [uni]
    and [mask] are not initialised in C; they start here as 0, and
    [ip_addr_pton] overwrites all four bytes before they are read
    ([ip_addr_pton_overwrites] below). *)
Definition ip_iface_alloc (h : heap) (unicast netmask : list ascii)
  : option ptr * heap * list event :=
  match memory_alloc h with
  | None => (None, h, [errorf "memory_alloc() failure"])
  | Some iface =>
      let h0 := <[iface := zero_iface]> h in
      let h1 := store h0 iface (fun i => set_family i NET_IFACE_FAMILY_IP) in
      let '(r1, uni) := ip_addr_pton unicast 0 in
      if r1 =? -1 then (None, memory_free h1 iface, [errorf "unicast ip cast failure"])
      else
        let h2 := store h1 iface (fun i => set_unicast i uni) in
        let '(r2, mask) := ip_addr_pton netmask 0 in
        if r2 =? -1 then (None, memory_free h2 iface, [errorf "netmask cast failure"])
        else
          let h3 := store h2 iface (fun i => set_netmask i mask) in
          let h4 := store h3 iface (fun i => set_broadcast i (broadcast_of uni mask)) in
          (Some iface, h4, [])
  end.

(** [ip_iface_register(dev, iface)]: the returned [int], the world and the
    device it leaves, and the diagnostics.  After the device layer took the
    interface, the two assignments are [iface->next = dev->ifaces] and
    [dev->ifaces = iface]; the file's own list head [ifaces] is not
    assigned. *)
Definition ip_iface_register (w : world) (dev : net_device) (iface : ptr)
  : Z * world * net_device * list event :=
  match net_device_add_iface (objs w) dev iface with
  | None => (-1, w, dev, [errorf "add iface failed"])
  | Some (h1, dev1) =>
      let h2 := store h1 iface (fun i => set_next i (dev_ifaces dev1)) in
      let dev2 := {| name := name dev1; dev_ifaces := Some iface |} in
      let i := iface_at h2 iface in
      (0, {| objs := h2; ifaces := ifaces w |}, dev2,
       [infof "registered: dev=%s, unicast=%s, netmask=%s, broadcast=%s"
          [arg_s (name dev2); arg_s (ntop_str (unicast i));
           arg_s (ntop_str (netmask i)); arg_s (ntop_str (broadcast i))]])
  end.

(** The loop of [ip_iface_select], from [entry] on, for at most [fuel]
    entries: [Some r] when the loop ends with [r] returned, [None] when the
    fuel is used up or an entry is no live object. *)
Fixpoint select_loop (fuel : nat) (h : heap) (entry : option ptr) (addr : Z)
  : option (option ptr) :=
  match entry with
  | None => Some None
  | Some e =>
      match fuel with
      | O => None
      | S fuel' =>
          match h !! e with
          | None => None
          | Some i =>
              if (unicast i =? addr) || (broadcast i =? addr) then Some (Some e)
              else select_loop fuel' h (next i) addr
          end
      end
  end.

(** [ip_iface_select(addr)]: the returned pointer and the diagnostics. *)
Definition ip_iface_select (fuel : nat) (w : world) (addr : Z)
  : option (option ptr * list event) :=
  match select_loop fuel (objs w) (ifaces w) addr with
  | None => None
  | Some (Some e) => Some (Some e, [])
  | Some None => Some (None, [warnf "not found device which has specified addr"])
  end.

(** [ip_input(data, len, dev)]: what the call leaves on the diagnostic
    channel; the function returns nothing and changes no state. *)
Definition ip_input (h : heap) (data : list byte) (len : Z) (dev : net_device)
  : list event :=
  if len <? IP_HDR_SIZE_MIN then [errorf "header size is too short"]
  else
    let hdr := hdr_of data in
    let v := Z.shiftr (Z.land (vhl hdr) 0xf0) 4 in
    if negb (v =? IP_VERSION_IPV4) then [errorf "version must be 4"]
    else
      let hlen := 1 (* sizeof( *data ) *) in
      if len <? hlen then [errorf "header data is too short"]
      else
        let total := ntoh16 (total hdr) in
        if len <? total then [errorf "header total is too short"]
        else
          let sum := cksum16 data len 0 in
          if negb (sum =? 0) then [errorf "checksum validation failed"]
          else
            let offset := ntoh16 (offset hdr) in
            if negb (Z.land offset 0x2000 =? 0) || negb (Z.land offset 0x1fff =? 0)
            then [errorf "flagments does not support"]
            else
              match net_device_get_iface h dev NET_IFACE_FAMILY_IP with
              | None => [errorf "coudln't get iface"]
              | Some p =>
                  let iface := iface_at h p in
                  if negb (dst hdr =? unicast iface)
                     && negb (dst hdr =? IP_ADDR_BROADCAST)
                     && negb (dst hdr =? broadcast iface)
                  then []
                  else
                    [debugf "dev=%s, iface=%s, protocol=%u, total=%u"
                       [arg_s (name dev); arg_s (ntop_str (unicast iface));
                        arg_u (protocol hdr); arg_u total];
                     ip_dump data total]
              end.

End Ip.

(** ** A reference implementation of the collaborators

    Used to run ip.c on concrete inputs. *)

Definition set_net_next (i : ip_iface) (v : option ptr) : ip_iface :=
  {| net_next := v; family := family i; next := next i;
     unicast := unicast i; netmask := netmask i; broadcast := broadcast i |}.

(** The walk over a device's interface list, for at most [fuel] entries. *)
Fixpoint dev_find (fuel : nat) (h : heap) (entry : option ptr) (fam : Z) : option ptr :=
  match fuel, entry with
  | S fuel', Some e =>
      if family (iface_at h e) =? fam then Some e
      else dev_find fuel' h (net_next (iface_at h e)) fam
  | _, _ => None
  end.

(** Modelled from the spec: [net_device_get_iface] of net.c, which is not
    among the sources; it resolves which interface of a family belongs to the
    device. *)
Definition ref_get_iface (h : heap) (dev : net_device) (fam : Z) : option ptr :=
  dev_find (size h) h (dev_ifaces dev) fam.

(** Modelled from the spec: [net_device_add_iface] of net.c, which is not
    among the sources; the device rejects the interface when it already has
    one of this family bound, and puts it on its interface list otherwise. *)
Definition ref_add_iface (h : heap) (dev : net_device) (iface : ptr)
  : option (heap * net_device) :=
  match ref_get_iface h dev (family (iface_at h iface)) with
  | Some _ => None
  | None =>
      Some (store h iface (fun i => set_net_next i (dev_ifaces dev)),
            {| name := name dev; dev_ifaces := Some iface |})
  end.

(** Modelled from the spec: [memory_alloc] of the platform layer, which is
    not among the sources; this one never fails. *)
Definition ref_alloc (h : heap) : option ptr := Some (fresh (dom h)).

Lemma ref_alloc_fresh (h : heap) (p : ptr) : ref_alloc h = Some p -> h !! p = None.
Proof.
  intros [= <-]. apply not_elem_of_dom. apply is_fresh.
Qed.

#[local] Instance ref_collab : Collaborators := {|
  memory_alloc := ref_alloc;
  memory_alloc_fresh := ref_alloc_fresh;
  NET_IFACE_FAMILY_IP := 1;
  net_device_add_iface := ref_add_iface;
  net_device_get_iface := ref_get_iface
|}.

(** A platform whose allocator is out of memory. *)
#[local] Instance oom_collab : Collaborators := {|
  memory_alloc := fun _ => None;
  memory_alloc_fresh := fun h p (E : None = Some p) =>
    match E in _ = o return match o with Some _ => h !! p = None | None => True end with
    | eq_refl => I
    end;
  NET_IFACE_FAMILY_IP := 1;
  net_device_add_iface := ref_add_iface;
  net_device_get_iface := ref_get_iface
|}.

Definition chars (s : string) : list ascii := list_ascii_of_string s.

(** ** The text form of an address, as the spec words it

    The grammar [ip_addr_pton] is compared with.  A segment is what one
    [strtol] call consumes: white space, an optional sign and at least one
    digit. *)

(** The number a string of decimal digits denotes. *)
Definition dec_value (ds : list ascii) : Z :=
  fold_left (fun acc c => acc * 10 + digit_val c) ds 0.

Inductive segment : list ascii -> Z -> Prop :=
| segment_plain (ws ds : list ascii) :
    forallb isspace ws = true -> ds <> [] -> forallb isdigit ds = true ->
    segment (ws ++ ds) (dec_value ds)
| segment_plus (ws ds : list ascii) :
    forallb isspace ws = true -> ds <> [] -> forallb isdigit ds = true ->
    segment (ws ++ "+"%char :: ds) (dec_value ds)
| segment_minus (ws ds : list ascii) :
    forallb isspace ws = true -> ds <> [] -> forallb isdigit ds = true ->
    segment (ws ++ "-"%char :: ds) (- dec_value ds).

(** A segment whose value is an octet. *)
Definition octet (s : list ascii) (v : Z) : Prop := segment s v /\ 0 <= v <= 255.

(** [p] starts with the segments of the octets [vs], each followed by a
    dot, and goes on with [rest]. *)
Fixpoint leading (vs : list Z) (p rest : list ascii) : Prop :=
  match vs with
  | [] => rest = p
  | v :: vs' => exists s r, p = s ++ "."%char :: r /\ octet s v /\ leading vs' r rest
  end.

(** [p] is four segments with octet values, the first three each followed
    by a dot and the fourth by the end of the string. *)
Definition dotted_quad (p : list ascii) (v0 v1 v2 v3 : Z) : Prop :=
  exists rest s3 tail,
    leading [v0; v1; v2] p rest /\ rest = s3 ++ tail /\ octet s3 v3
    /\ deref tail = NUL.

(** The end-of-segment test of the loop: a dot after the first three
    segments, the end of the string after the fourth. *)
Definition follows (idx : Z) (r : list ascii) : Prop :=
  if idx =? 3 then deref r = NUL else deref r = "."%char.

(** The octets [vs] stored from byte [idx] of [n] on. *)
Fixpoint write_octets (n : Z) (idx : Z) (vs : list Z) : Z :=
  match vs with
  | [] => n
  | v :: vs' => write_octets (u8_set n idx v) (idx + 1) vs'
  end.

(** [%d] of an octet gives one to three digits that denote it. *)
Definition fmt_ok (b : Z) : bool :=
  forallb isdigit (fmt_d b)
  && negb (Nat.eqb (length (fmt_d b)) 0)
  && Nat.leb (length (fmt_d b)) 3
  && (dec_value (fmt_d b) =? b).

(** A character of an address text: a digit or the dot. *)
Definition addr_char (c : ascii) : bool := isdigit c || Ascii.eqb c ".".

(** No character of [w] is the NUL. *)
Definition no_nul (w : list ascii) : bool :=
  forallb (fun c => negb (Ascii.eqb c NUL)) w.

(** ** Sample data *)

(** A 20-byte header from 192.0.2.1 with a correct checksum; the
    parameters are the first byte, the low byte of the total length, the
    flags and fragment offset, the checksum and the destination. *)
Definition sample_hdr (b0 tl f0 f1 c0 c1 d0 d1 d2 d3 : byte) : list byte :=
  [b0; x00; x00; tl; x00; x00; f0; f1; x40; x01; c0; c1;
   xc0; x00; x02; x01; d0; d1; d2; d3].

(** To 192.0.2.10, header length field 5, total length 20. *)
Definition pkt_unicast : list byte := sample_hdr x45 x14 x00 x00 xf6 xdd xc0 x00 x02 x0a.
(** The same with header length field 6: a 24-byte header is declared. *)
Definition pkt_ihl6 : list byte := sample_hdr x46 x14 x00 x00 xf5 xdd xc0 x00 x02 x0a.
(** The same as [pkt_unicast] with the more-fragments flag set. *)
Definition pkt_more_fragments : list byte := sample_hdr x45 x14 x20 x00 xd6 xdd xc0 x00 x02 x0a.
(** The same as [pkt_unicast] with fragment offset 1. *)
Definition pkt_offset1 : list byte := sample_hdr x45 x14 x00 x01 xf6 xdc xc0 x00 x02 x0a.
(** To 192.0.2.255, 255.255.255.255 and 192.0.2.99. *)
Definition pkt_subnet_bcast : list byte := sample_hdr x45 x14 x00 x00 xf5 xe8 xc0 x00 x02 xff.
Definition pkt_limited_bcast : list byte := sample_hdr x45 x14 x00 x00 xb8 xe8 xff xff xff xff.
Definition pkt_other : list byte := sample_hdr x45 x14 x00 x00 xf6 x84 xc0 x00 x02 x63.
(** Total length 30 declared in a 20-byte buffer. *)
Definition pkt_total30 : list byte := sample_hdr x45 x1e x00 x00 xf6 xd3 xc0 x00 x02 x0a.

(** [pkt_unicast] followed by two bytes that are no part of the datagram. *)
Definition pkt_padded : list byte := pkt_unicast ++ [x00; x01].

(** The interface 192.0.2.10/255.255.255.0 as object 0 of the heap, bound to
    the device [eth0]. *)
Definition sample_iface : ip_iface :=
  {| net_next := None; family := 1; next := None;
     unicast := 0x0a0200c0; netmask := 0x00ffffff; broadcast := 0xff0200c0 |}.
Definition sample_heap : heap := {[ 0%nat := sample_iface ]}.
Definition sample_dev : net_device := {| name := chars "eth0"; dev_ifaces := Some 0%nat |}.
(** A device with no interface. *)
Definition bare_dev : net_device := {| name := chars "eth1"; dev_ifaces := None |}.

(** ** A setup run

    An interface is allocated for 192.0.2.10/255.255.255.0 in the empty
    world and registered with the device [eth1]. *)
Definition setup_alloc : option ptr * heap * list event :=
  @ip_iface_alloc ref_collab ∅ (chars "192.0.2.10") (chars "255.255.255.0").

Definition setup_register : option (Z * world * net_device * list event) :=
  match setup_alloc with
  | (Some p, h, _) =>
      Some (@ip_iface_register ref_collab {| objs := h; ifaces := None |} bare_dev p)
  | _ => None
  end.

(** The world after a sequence of registrations, each of an interface with
    a device. *)
Fixpoint register_seq `{Collaborators} (w : world) (regs : list (net_device * ptr))
  : world :=
  match regs with
  | [] => w
  | (dev, iface) :: rest => register_seq (ip_iface_register w dev iface).1.1.2 rest
  end.

(** ** Interface lists

    What [ip_iface_select] walks when its list is well formed. *)

(** The test [ip_iface_select] makes on one entry. *)
Definition owns (i : ip_iface) (addr : Z) : bool :=
  (unicast i =? addr) || (broadcast i =? addr).

(** [ps] are the entries of the list that starts at [entry], in order: each
    is a live object and its [next] starts the rest; the last [next] is
    [NULL]. *)
Inductive chain (h : heap) : option ptr -> list ptr -> Prop :=
| chain_nil : chain h None []
| chain_cons (e : ptr) (i : ip_iface) (ps : list ptr) :
    h !! e = Some i -> chain h (next i) ps -> chain h (Some e) (e :: ps).

(** Two interfaces that both own 192.0.2.10, the first linked to the
    second. *)
Definition twin_heap : heap :=
  {[ 0%nat := set_next sample_iface (Some 1%nat);
     1%nat := sample_iface ]}.
Definition twin_world : world := {| objs := twin_heap; ifaces := Some 0%nat |}.

(** ** [ip_dump]

    What [ip_dump(data, len)] writes to stderr: one entry per [fprintf],
    with the format (less its final newline) and the values of the
    arguments.  [flockfile] and [funlockfile] only guard the stream and the
    hex dump under [#ifdef HEXDUMP] is not compiled in. *)

(** [v = (hdr->vhl & 0xf0) >> 4]. *)
Definition dump_v (hdr : ip_hdr) : Z := Z.shiftr (Z.land (vhl hdr) 0xf0) 4.

(** [hl = hdr->vhl & 0x0f]. *)
Definition dump_hl (hdr : ip_hdr) : Z := Z.land (vhl hdr) 0x0f.

(** [hlen = hl << 2], stored in a [uint8_t]. *)
Definition dump_hlen (hdr : ip_hdr) : Z := Z.shiftl (dump_hl hdr) 2 mod 256.

(** [(offset & 0xe000) >> 13] and [offset & 0x1fff] of the converted
    flags-and-offset field. *)
Definition dump_flags (hdr : ip_hdr) : Z :=
  Z.shiftr (Z.land (ntoh16 (offset hdr)) 0xe000) 13.
Definition dump_fragoff (hdr : ip_hdr) : Z := Z.land (ntoh16 (offset hdr)) 0x1fff.

(** [total - len] as [%u] shows it: the [uint16_t] is converted to
    [size_t], the difference wraps at 64 bits, and [%u] prints its low 32
    bits. *)
Definition dump_payload (hdr : ip_hdr) (len : Z) : Z :=
  ((ntoh16 (total hdr) - len) mod 2 ^ 64) mod 2 ^ 32.

Definition ip_dump_lines (data : list byte) (len : Z) : list (string * list log_arg) :=
  let hdr := hdr_of data in
  [ ("        vhl: 0x%02x [v: %u, hl: %u, (%u)]",
     [arg_u (vhl hdr); arg_u (dump_v hdr); arg_u (dump_hl hdr); arg_u (dump_hlen hdr)]);
    ("        tos: 0x%02x", [arg_u (tos hdr)]);
    ("      total: %u (payload: %u)",
     [arg_u (ntoh16 (total hdr)); arg_u (dump_payload hdr len)]);
    ("         id: %u", [arg_u (ntoh16 (id hdr))]);
    ("     offset: 0x%04x [flags=%x, offset=%u]",
     [arg_u (ntoh16 (offset hdr)); arg_u (dump_flags hdr); arg_u (dump_fragoff hdr)]);
    ("        ttl: %u", [arg_u (ttl hdr)]);
    ("   protocol: %u", [arg_u (protocol hdr)]);
    ("        sum: 0x%04x", [arg_u (ntoh16 (sum hdr))]);
    ("        src: %s", [arg_s (ntop_str (src hdr))]);
    ("        dst: %s", [arg_s (ntop_str (dst hdr))]) ]%string.

(** The header dumps a log asks for, each as the lines [ip_dump] writes. *)
Definition dumps_of (log : list event) : list (list (string * list log_arg)) :=
  flat_map (fun e => match e with
                     | ip_dump data len => [ip_dump_lines data len]
                     | _ => []
                     end) log.

(** The log with the buffer of every dump replaced by [data]. *)
Definition with_buffer (data : list byte) (e : event) : event :=
  match e with
  | ip_dump _ len => ip_dump data len
  | _ => e
  end.

(** [pkt_unicast] with the don't-fragment flag set, and with version 6. *)
Definition pkt_dont_fragment : list byte :=
  sample_hdr x45 x14 x40 x00 xb6 xdd xc0 x00 x02 x0a.
Definition pkt_version6 : list byte :=
  sample_hdr x65 x14 x00 x00 xd6 xdd xc0 x00 x02 x0a.

(** What [ntoh16] and the fragment masks of [ip_input] make of the two
    bytes [x], [y] of the flags-and-offset field as they stand in the
    packet. *)
Definition frag_bytes_ok (x y : Z) : bool :=
  (ntoh16 (x + 256 * y) =? 256 * x + y)
  && Bool.eqb (negb (Z.land (256 * x + y) 0x2000 =? 0)
               || negb (Z.land (256 * x + y) 0x1fff =? 0))
              (negb (Z.land x 0x3f =? 0) || negb (y =? 0))
  && (Z.shiftr (Z.land (256 * x + y) 0xe000) 13 =? x / 32)
  && (Z.land (256 * x + y) 0x1fff =? 256 * (x mod 32) + y).

(** ** What a log says about the packet *)

(** The packet was handed on: the log holds the header dump. *)
Definition accepted (log : list event) : bool :=
  existsb (fun e => match e with ip_dump _ _ => true | _ => false end) log.

(** The packet was rejected with a diagnostic: one [errorf] and nothing
    else. *)
Definition rejected (log : list event) : Prop := exists msg, log = [errorf msg].

(** The checks of [ip_input] that precede the interface lookup all pass. *)
Definition validated (data : list byte) (len : Z) : Prop :=
  IP_HDR_SIZE_MIN <= len /\
  Z.shiftr (Z.land (vhl (hdr_of data)) 0xf0) 4 = IP_VERSION_IPV4 /\
  ntoh16 (total (hdr_of data)) <= len /\
  cksum16 data len 0 = 0 /\
  Z.land (ntoh16 (offset (hdr_of data))) 0x2000 = 0 /\
  Z.land (ntoh16 (offset (hdr_of data))) 0x1fff = 0.

(** What [ip_input] logs for a packet it hands on. *)
Definition accept_log (data : list byte) (dev : net_device) (iface : ip_iface) : list event :=
  [debugf "dev=%s, iface=%s, protocol=%u, total=%u"
     [arg_s (name dev); arg_s (ntop_str (unicast iface));
      arg_u (protocol (hdr_of data)); arg_u (ntoh16 (total (hdr_of data)))];
   ip_dump data (ntoh16 (total (hdr_of data)))].

(** * Properties *)

(** ** Tactics *)

(** Turns the boolean tests of the embedding, once decided, into
    propositions. *)
Ltac bool_hyps :=
  repeat match goal with
  | H : negb _ = true |- _ => apply negb_true_iff in H
  | H : negb _ = false |- _ => apply negb_false_iff in H
  | H : (_ || _)%bool = false |- _ => apply orb_false_iff in H; destruct H
  | H : (_ && _)%bool = true |- _ => apply andb_true_iff in H; destruct H
  | H : (_ <? _) = true |- _ => apply Z.ltb_lt in H
  | H : (_ <? _) = false |- _ => apply Z.ltb_ge in H
  | H : (_ <=? _) = true |- _ => apply Z.leb_le in H
  | H : (_ <=? _) = false |- _ => apply Z.leb_gt in H
  | H : (_ =? _) = true |- _ => apply Z.eqb_eq in H
  | H : (_ =? _) = false |- _ => apply Z.eqb_neq in H
  end.

(** Decides the next test of the goal both ways. *)
Ltac next_test :=
  match goal with
  | |- context [if ?c then _ else _] => destruct c eqn:?; bool_hyps
  end.

Ltac ip_consts := unfold IP_HDR_SIZE_MIN, IP_VERSION_IPV4, IP_ADDR_BROADCAST in *.

(** ** [ip_input], check by check *)

Section Input.
Context `{Collaborators}.
Variables (h : heap) (data : list byte) (len : Z) (dev : net_device).

Lemma ip_input_short :
  len < IP_HDR_SIZE_MIN ->
  ip_input h data len dev = [errorf "header size is too short"].
Proof.
  intros Hlen. unfold ip_input. next_test; [reflexivity | lia].
Qed.

Lemma ip_input_version :
  IP_HDR_SIZE_MIN <= len ->
  Z.shiftr (Z.land (vhl (hdr_of data)) 0xf0) 4 <> IP_VERSION_IPV4 ->
  ip_input h data len dev = [errorf "version must be 4"].
Proof.
  intros Hlen Hv. unfold ip_input.
  next_test; [lia |]. next_test; [reflexivity | contradiction].
Qed.

(** Past the version check the header-size test compares [len] with
    [sizeof( *data )], which is 1, and never fires. *)
Lemma ip_input_total :
  IP_HDR_SIZE_MIN <= len ->
  Z.shiftr (Z.land (vhl (hdr_of data)) 0xf0) 4 = IP_VERSION_IPV4 ->
  len < ntoh16 (total (hdr_of data)) ->
  ip_input h data len dev = [errorf "header total is too short"].
Proof.
  intros Hlen Hv Ht. unfold ip_input.
  next_test; [lia |]. next_test; [contradiction |].
  next_test; [ip_consts; lia |]. next_test; [reflexivity | lia].
Qed.

Lemma ip_input_cksum :
  IP_HDR_SIZE_MIN <= len ->
  Z.shiftr (Z.land (vhl (hdr_of data)) 0xf0) 4 = IP_VERSION_IPV4 ->
  ntoh16 (total (hdr_of data)) <= len ->
  cksum16 data len 0 <> 0 ->
  ip_input h data len dev = [errorf "checksum validation failed"].
Proof.
  intros Hlen Hv Ht Hc. unfold ip_input.
  next_test; [lia |]. next_test; [contradiction |].
  next_test; [ip_consts; lia |]. next_test; [lia |].
  next_test; [reflexivity | contradiction].
Qed.

Lemma ip_input_fragment :
  IP_HDR_SIZE_MIN <= len ->
  Z.shiftr (Z.land (vhl (hdr_of data)) 0xf0) 4 = IP_VERSION_IPV4 ->
  ntoh16 (total (hdr_of data)) <= len ->
  cksum16 data len 0 = 0 ->
  Z.land (ntoh16 (offset (hdr_of data))) 0x2000 <> 0
  \/ Z.land (ntoh16 (offset (hdr_of data))) 0x1fff <> 0 ->
  ip_input h data len dev = [errorf "flagments does not support"].
Proof.
  intros Hlen Hv Ht Hc Hf. unfold ip_input.
  next_test; [lia |]. next_test; [contradiction |].
  next_test; [ip_consts; lia |]. next_test; [lia |].
  next_test; [contradiction |].
  next_test; [reflexivity | tauto].
Qed.

(** A validated packet reaches the interface lookup. *)
Lemma ip_input_validated :
  validated data len ->
  ip_input h data len dev =
    match net_device_get_iface h dev NET_IFACE_FAMILY_IP with
    | None => [errorf "coudln't get iface"]
    | Some p =>
        let iface := iface_at h p in
        if negb (dst (hdr_of data) =? unicast iface)
           && negb (dst (hdr_of data) =? IP_ADDR_BROADCAST)
           && negb (dst (hdr_of data) =? broadcast iface)
        then []
        else accept_log data dev iface
    end.
Proof.
  intros (Hlen & Hv & Ht & Hc & Hmf & Hoff). unfold ip_input.
  next_test; [lia |]. next_test; [contradiction |].
  next_test; [ip_consts; lia |]. next_test; [lia |].
  next_test; [contradiction |].
  rewrite Hmf, Hoff. reflexivity.
Qed.

(** Whatever the packet, [ip_input] ends in one of three ways: one
    [errorf], silence, or the hand-off. *)
Lemma ip_input_outcomes :
  rejected (ip_input h data len dev)
  \/ ip_input h data len dev = []
  \/ exists iface, ip_input h data len dev = accept_log data dev iface.
Proof.
  unfold ip_input, rejected.
  repeat (next_test; [eauto |]).
  destruct (net_device_get_iface h dev NET_IFACE_FAMILY_IP); [| eauto].
  cbv zeta. next_test; eauto.
Qed.

End Input.

(** ** The claims on [ip_input] *)

(** The test on the header size cannot fire: its message is never logged. *)
Lemma ip_input_no_header_data `{Collaborators} (h : heap) (data : list byte)
    (len : Z) (dev : net_device) :
  ip_input h data len dev <> [errorf "header data is too short"].
Proof.
  unfold ip_input.
  next_test; [discriminate |]. next_test; [discriminate |].
  next_test; [ip_consts; lia |].
  repeat (next_test; [discriminate |]).
  destruct (net_device_get_iface h dev NET_IFACE_FAMILY_IP); [| discriminate].
  cbv zeta. next_test; discriminate.
Qed.

(** C1 (the code departs from the claim).  [pkt_ihl6] is a 20-byte buffer
    whose first byte declares a header of 6 words, 24 bytes; [ip_input] does
    not compare that size with the length and hands the packet on. *)
Theorem ip_input_accepts_header_longer_than_buffer :
  4 * Z.land (vhl (hdr_of pkt_ihl6)) 0x0f = 24
  /\ @ip_input ref_collab sample_heap pkt_ihl6 20 sample_dev
     = accept_log pkt_ihl6 sample_dev sample_iface.
Proof.
  split; vm_compute; reflexivity.
Qed.

(** C4: a packet that passed every check, on a device with a bound
    interface, is handed on exactly when its destination is the interface's
    unicast address, its broadcast address or 255.255.255.255; otherwise
    nothing at all is logged.  With no interface bound the packet is dropped
    with the diagnostic "coudln't get iface".  [ip_input] returns nothing in
    either case. *)
Theorem ip_input_destination `{Collaborators} (h : heap) (data : list byte)
    (len : Z) (dev : net_device) :
  validated data len ->
  (forall p iface,
      net_device_get_iface h dev NET_IFACE_FAMILY_IP = Some p ->
      h !! p = Some iface ->
      let d := dst (hdr_of data) in
      (accepted (ip_input h data len dev) = true
       <-> d = unicast iface \/ d = broadcast iface \/ d = IP_ADDR_BROADCAST)
      /\ (d = unicast iface \/ d = broadcast iface \/ d = IP_ADDR_BROADCAST ->
          ip_input h data len dev = accept_log data dev iface)
      /\ (d <> unicast iface -> d <> broadcast iface -> d <> IP_ADDR_BROADCAST ->
          ip_input h data len dev = []))
  /\ (net_device_get_iface h dev NET_IFACE_FAMILY_IP = None ->
      ip_input h data len dev = [errorf "coudln't get iface"]).
Proof.
  intros Hv. rewrite (ip_input_validated h data len dev Hv). split.
  - intros p iface -> Hp. unfold iface_at. rewrite Hp.
    change (default zero_iface (Some iface)) with iface.
    cbv zeta. generalize (dst (hdr_of data)). intros d.
    destruct (d =? unicast iface) eqn:Eu;
      destruct (d =? IP_ADDR_BROADCAST) eqn:Eb;
      destruct (d =? broadcast iface) eqn:Ec; bool_hyps;
      cbn [negb andb accepted accept_log existsb orb];
      repeat split; intros; try reflexivity; try tauto; try discriminate.
  - intros ->. reflexivity.
Qed.

(** C5: with fewer than 20 bytes the packet is rejected whatever the buffer
    holds, so before any field is read; a declared total length above the
    length rejects the packet; a buffer longer than the declared total length
    draws none of the three length diagnostics. *)
Theorem ip_input_length_checks `{Collaborators} (h : heap) (data : list byte)
    (len : Z) (dev : net_device) :
  (len < 20 ->
   forall data', ip_input h data' len dev = [errorf "header size is too short"])
  /\ (len < ntoh16 (total (hdr_of data)) ->
      rejected (ip_input h data len dev)
      /\ (20 <= len ->
          Z.shiftr (Z.land (vhl (hdr_of data)) 0xf0) 4 = IP_VERSION_IPV4 ->
          ip_input h data len dev = [errorf "header total is too short"]))
  /\ (20 <= len -> ntoh16 (total (hdr_of data)) < len ->
      ip_input h data len dev <> [errorf "header size is too short"]
      /\ ip_input h data len dev <> [errorf "header data is too short"]
      /\ ip_input h data len dev <> [errorf "header total is too short"]).
Proof.
  split; [| split].
  - intros Hlen data'. apply ip_input_short. ip_consts. lia.
  - intros Ht. split.
    + destruct (Z.lt_ge_cases len IP_HDR_SIZE_MIN) as [Hs | Hs].
      { eexists. apply ip_input_short, Hs. }
      destruct (Z.eq_dec (Z.shiftr (Z.land (vhl (hdr_of data)) 0xf0) 4)
                  IP_VERSION_IPV4) as [Hv | Hv].
      * eexists. apply ip_input_total; assumption.
      * eexists. apply ip_input_version; assumption.
    + intros Hlen Hv. apply ip_input_total; [ip_consts; lia | assumption..].
  - intros Hlen Ht. split; [| split]; try apply ip_input_no_header_data;
      unfold ip_input; (next_test; [ip_consts; lia |]);
      (next_test; [discriminate |]); (next_test; [discriminate |]);
      (next_test; [lia |]); repeat (next_test; [discriminate |]);
      (destruct (net_device_get_iface h dev NET_IFACE_FAMILY_IP); [| discriminate]);
      cbv zeta; next_test; discriminate.
Qed.

(** C6: a packet whose more-fragments flag is set or whose 13-bit fragment
    offset is not zero is never handed on: it ends in a single diagnostic,
    whether its checksum is right or not; when it reaches the fragmentation
    check the diagnostic is that check's. *)
Theorem ip_input_rejects_fragments `{Collaborators} (h : heap) (data : list byte)
    (len : Z) (dev : net_device) :
  Z.land (ntoh16 (offset (hdr_of data))) 0x2000 <> 0
  \/ Z.land (ntoh16 (offset (hdr_of data))) 0x1fff <> 0 ->
  rejected (ip_input h data len dev)
  /\ accepted (ip_input h data len dev) = false
  /\ (IP_HDR_SIZE_MIN <= len ->
      Z.shiftr (Z.land (vhl (hdr_of data)) 0xf0) 4 = IP_VERSION_IPV4 ->
      ntoh16 (total (hdr_of data)) <= len ->
      cksum16 data len 0 = 0 ->
      ip_input h data len dev = [errorf "flagments does not support"]).
Proof.
  intros Hf.
  assert (Hr : rejected (ip_input h data len dev)).
  { unfold ip_input, rejected.
    repeat (next_test; [eauto |]). tauto. }
  split; [exact Hr | split].
  - destruct Hr as [msg ->]. reflexivity.
  - intros. apply ip_input_fragment; assumption.
Qed.

(** The sample packets pass every check, also when followed by two bytes
    of zero padding. *)
Lemma pkt_unicast_validated : validated pkt_unicast 20.
Proof. repeat split; vm_compute; congruence. Qed.

Lemma pkt_other_validated : validated pkt_other 20.
Proof. repeat split; vm_compute; congruence. Qed.

Lemma pkt_subnet_bcast_validated : validated pkt_subnet_bcast 20.
Proof. repeat split; vm_compute; congruence. Qed.

Lemma pkt_limited_bcast_validated : validated pkt_limited_bcast 20.
Proof. repeat split; vm_compute; congruence. Qed.

(** C4 at the sample interface 192.0.2.10/24: packets to 192.0.2.10,
    192.0.2.255 and 255.255.255.255 are handed on, one to 192.0.2.99 is
    dropped without a word, and a device without interface logs the
    diagnostic. *)
Lemma ip_input_destination_witness :
  @ip_input ref_collab sample_heap pkt_unicast 20 sample_dev
    = accept_log pkt_unicast sample_dev sample_iface
  /\ @ip_input ref_collab sample_heap pkt_subnet_bcast 20 sample_dev
    = accept_log pkt_subnet_bcast sample_dev sample_iface
  /\ @ip_input ref_collab sample_heap pkt_limited_bcast 20 sample_dev
    = accept_log pkt_limited_bcast sample_dev sample_iface
  /\ @ip_input ref_collab sample_heap pkt_other 20 sample_dev = []
  /\ @ip_input ref_collab sample_heap pkt_unicast 20 bare_dev
    = [errorf "coudln't get iface"].
Proof.
  assert (G : @net_device_get_iface ref_collab sample_heap sample_dev
                (@NET_IFACE_FAMILY_IP ref_collab) = Some 0%nat)
    by (vm_compute; reflexivity).
  assert (L : sample_heap !! 0%nat = Some sample_iface) by (vm_compute; reflexivity).
  split; [| split; [| split; [| split]]].
  - apply (proj1 (@ip_input_destination ref_collab sample_heap pkt_unicast 20 sample_dev
                    pkt_unicast_validated) 0%nat sample_iface G L).
    left. vm_compute. reflexivity.
  - apply (proj1 (@ip_input_destination ref_collab sample_heap pkt_subnet_bcast 20
                    sample_dev pkt_subnet_bcast_validated) 0%nat sample_iface G L).
    right. left. vm_compute. reflexivity.
  - apply (proj1 (@ip_input_destination ref_collab sample_heap pkt_limited_bcast 20
                    sample_dev pkt_limited_bcast_validated) 0%nat sample_iface G L).
    right. right. vm_compute. reflexivity.
  - apply (proj1 (@ip_input_destination ref_collab sample_heap pkt_other 20 sample_dev
                    pkt_other_validated) 0%nat sample_iface G L);
      vm_compute; congruence.
  - apply (proj2 (@ip_input_destination ref_collab sample_heap pkt_unicast 20 bare_dev
                    pkt_unicast_validated)).
    vm_compute. reflexivity.
Defined.

(** C5 on concrete buffers: 19 bytes are rejected whatever they hold; a
    header that declares 30 bytes in a buffer of 20 is rejected; a valid
    20-byte datagram in a buffer of 22 draws no length diagnostic. *)
Lemma ip_input_length_checks_witness :
  (forall data', @ip_input ref_collab sample_heap data' 19 sample_dev
                 = [errorf "header size is too short"])
  /\ @ip_input ref_collab sample_heap pkt_total30 20 sample_dev
     = [errorf "header total is too short"]
  /\ @ip_input ref_collab sample_heap (pkt_unicast ++ [x00; x00]) 22 sample_dev
     <> [errorf "header total is too short"].
Proof.
  split; [| split].
  - apply (@ip_input_length_checks ref_collab sample_heap [] 19 sample_dev). lia.
  - apply (@ip_input_length_checks ref_collab sample_heap pkt_total30 20 sample_dev).
    + vm_compute. reflexivity.
    + lia.
    + vm_compute. reflexivity.
  - apply (@ip_input_length_checks ref_collab sample_heap
             (pkt_unicast ++ [x00; x00]) 22 sample_dev).
    + lia.
    + vm_compute. reflexivity.
Defined.

(** C6 on the sample packets with the more-fragments flag and with
    fragment offset 1, both with a correct checksum. *)
Lemma ip_input_rejects_fragments_witness :
  @ip_input ref_collab sample_heap pkt_more_fragments 20 sample_dev
    = [errorf "flagments does not support"]
  /\ @ip_input ref_collab sample_heap pkt_offset1 20 sample_dev
    = [errorf "flagments does not support"].
Proof.
  split.
  - apply (@ip_input_rejects_fragments ref_collab sample_heap pkt_more_fragments 20
             sample_dev).
    + left. vm_compute. congruence.
    + vm_compute. congruence.
    + vm_compute. reflexivity.
    + vm_compute. congruence.
    + vm_compute. reflexivity.
  - apply (@ip_input_rejects_fragments ref_collab sample_heap pkt_offset1 20
             sample_dev).
    + right. vm_compute. congruence.
    + vm_compute. congruence.
    + vm_compute. reflexivity.
    + vm_compute. congruence.
    + vm_compute. reflexivity.
Defined.

(** ** Bytes and one's-complement sums *)

Lemma b2z_range (b : byte) : 0 <= b2z b <= 255.
Proof.
  unfold b2z. pose proof (Byte.to_N_bounded b). lia.
Qed.

Lemma le16_range (lo hi : byte) : 0 <= le16 lo hi <= 65535.
Proof.
  unfold le16. pose proof (b2z_range lo). pose proof (b2z_range hi). lia.
Qed.

(** Flipping bit [j] adds or takes away [2 ^ j]. *)
Lemma land_pow2 (x j : Z) :
  0 <= j -> Z.land x (2 ^ j) = 0 \/ Z.land x (2 ^ j) = 2 ^ j.
Proof.
  intros Hj. destruct (Z.testbit x j) eqn:E; [right | left];
    apply Z.bits_inj'; intros k Hk;
    rewrite Z.land_spec, Z.pow2_bits_eqb by lia;
    destruct (Z.eqb_spec j k) as [-> | Hne];
    rewrite ?E, ?andb_false_r, ?Z.bits_0; reflexivity.
Qed.

Lemma lxor_pow2 (x j : Z) :
  0 <= j -> Z.lxor x (2 ^ j) = x + 2 ^ j \/ Z.lxor x (2 ^ j) = x - 2 ^ j.
Proof.
  intros Hj. pose proof (Z.add_lxor_2land x (2 ^ j)).
  destruct (land_pow2 x j Hj); lia.
Qed.

Lemma flip_delta (b b' : byte) (j : Z) :
  0 <= j < 8 -> b2z b' = Z.lxor (b2z b) (2 ^ j) ->
  exists d, b2z b' - b2z b = d /\ 1 <= Z.abs d <= 128.
Proof.
  intros Hj E. exists (b2z b' - b2z b). split; [reflexivity |].
  assert (Hp : 1 <= 2 ^ j <= 128).
  { assert (j = 0 \/ j = 1 \/ j = 2 \/ j = 3 \/ j = 4 \/ j = 5 \/ j = 6 \/ j = 7)
      as Hc by lia.
    repeat destruct Hc as [-> | Hc]; try subst j; cbn; lia. }
  destruct (lxor_pow2 (b2z b) j) as [E' | E']; lia.
Qed.

(** Induction over a list two elements at a time, as [sum1c] reads it. *)
Lemma list_pair_ind {A : Type} (P : list A -> Prop) :
  P [] -> (forall a, P [a]) -> (forall a b l, P l -> P (a :: b :: l)) ->
  forall l, P l.
Proof.
  intros H0 H1 H2. fix IH 1. intros [| a [| b l]].
  - exact H0.
  - apply H1.
  - apply H2, IH.
Qed.

Lemma add1c_spec (a b : Z) :
  0 <= a <= 65535 -> 0 <= b <= 65535 ->
  0 <= add1c a b <= 65535
  /\ (add1c a b = a + b \/ add1c a b = a + b - 65535).
Proof.
  intros Ha Hb. unfold add1c. cbv zeta.
  destruct (a + b <? 65536) eqn:E; bool_hyps; lia.
Qed.

(** The one's-complement sum stays a 16-bit value and equals the plain sum
    of the words modulo 65535. *)
Lemma sum1c_spec (bs : list byte) :
  forall acc, 0 <= acc <= 65535 ->
  0 <= sum1c bs acc <= 65535
  /\ exists q, sum1c bs acc = acc + wsum bs - 65535 * q.
Proof.
  induction bs as [| b | lo hi rest IH] using list_pair_ind; intros acc Hacc.
  - cbn. split; [lia | exists 0; lia].
  - cbn. pose proof (b2z_range b).
    destruct (add1c_spec acc (b2z b)) as [Hr [E | E]]; try lia;
      (split; [lia |]); [exists 0 | exists 1]; lia.
  - cbn [sum1c wsum]. pose proof (le16_range lo hi).
    destruct (add1c_spec acc (le16 lo hi)) as [Hr [E | E]]; try lia;
      destruct (IH (add1c acc (le16 lo hi)) Hr) as [Hs [q Hq]];
      (split; [lia |]); [exists q | exists (q + 1)]; lia.
Qed.

Lemma cksum16_zero (addr : list byte) (count : Z) :
  cksum16 addr count 0 = 0 <-> sum1c (take (Z.to_nat count) addr) 0 = 65535.
Proof.
  unfold cksum16.
  destruct (sum1c_spec (take (Z.to_nat count) addr) 0) as [Hr _]; [lia |].
  rewrite Z.lnot_eq_pred_opp.
  replace (- sum1c (take (Z.to_nat count) addr) 0 - 1)
    with (65535 - sum1c (take (Z.to_nat count) addr) 0 + (-1) * 65536) by lia.
  rewrite Z.mod_add by lia. rewrite Z.mod_small by lia. lia.
Qed.

(** Replacing one byte moves the plain sum by the difference of the bytes,
    weighted by the byte's place in its word. *)
Lemma wsum_insert (bs : list byte) :
  forall (i : nat) (b b' : byte),
  bs !! i = Some b ->
  wsum (<[i := b']> bs)
  = wsum bs + (b2z b' - b2z b) * (if Nat.even i then 1 else 256).
Proof.
  induction bs as [| a | lo hi rest IH] using list_pair_ind; intros i b b' Hi.
  - discriminate.
  - destruct i as [| i]; [| discriminate]. injection Hi as ->. cbn. lia.
  - destruct i as [| [| i]].
    + injection Hi as ->. simpl. unfold le16. lia.
    + injection Hi as ->. simpl. unfold le16. lia.
    + simpl. rewrite (IH i b b') by exact Hi. lia.
Qed.

(** A header that checksums to zero no longer does after any one of the
    summed bits is flipped. *)
Lemma cksum16_detects_flip (data : list byte) (len : Z) (i : nat) (j : Z)
    (b b' : byte) :
  cksum16 data len 0 = 0 ->
  Z.of_nat i < len -> data !! i = Some b ->
  0 <= j < 8 -> b2z b' = Z.lxor (b2z b) (2 ^ j) ->
  cksum16 (<[i := b']> data) len 0 <> 0.
Proof.
  intros Hz Hi Hb Hj Hflip. rewrite cksum16_zero in *.
  rewrite take_insert_lt by lia.
  set (bs := take (Z.to_nat len) data) in *.
  assert (Hbs : bs !! i = Some b).
  { unfold bs. rewrite lookup_take_lt by lia. exact Hb. }
  destruct (sum1c_spec bs 0) as [_ [q Hq]]; [lia |].
  destruct (sum1c_spec (<[i := b']> bs) 0) as [_ [q' Hq']]; [lia |].
  rewrite (wsum_insert bs i b b' Hbs) in Hq'.
  destruct (flip_delta b b' j Hj Hflip) as (d & Hd & Habs).
  rewrite Hd in Hq'. intros Hz'.
  destruct (Nat.even i); lia.
Qed.

(** ** The checksum step of [ip_input] *)

(** C2 (the code departs from the claim).  [pkt_padded] is a 22-byte
    buffer: a 20-byte datagram, then two bytes of link-layer padding.  Its
    header declares a total length of 20 and sums to zero over those 20
    bytes, and the length checks let the longer buffer pass; the datagram
    alone is handed on.  Yet [ip_input] gives [cksum16] the 22 bytes
    received, the sum takes in the padding, and the packet is rejected. *)
Theorem ip_input_rejects_padded_datagram :
  pkt_padded = pkt_unicast ++ [x00; x01]
  /\ ntoh16 (total (hdr_of pkt_padded)) = 20
  /\ cksum16 pkt_padded 20 0 = 0
  /\ @ip_input ref_collab sample_heap pkt_unicast 20 sample_dev
     = accept_log pkt_unicast sample_dev sample_iface
  /\ @ip_input ref_collab sample_heap pkt_padded 22 sample_dev
     = [errorf "checksum validation failed"].
Proof.
  split; [reflexivity |].
  split; [| split; [| split]]; vm_compute; reflexivity.
Qed.

(** The checksum step as ip.c has it: for a packet that reaches it the
    sum [ip_input] tests is the one over the [len] bytes received; the
    packet is rejected with "checksum validation failed" exactly when that
    sum is not zero; and when it is zero, flipping any one of the summed
    bits makes [ip_input] reject the packet, at the checksum step or at the
    version or total-length check before it. *)
Lemma ip_input_checksum `{Collaborators} (h : heap) (data : list byte)
    (len : Z) (dev : net_device) :
  IP_HDR_SIZE_MIN <= len ->
  Z.shiftr (Z.land (vhl (hdr_of data)) 0xf0) 4 = IP_VERSION_IPV4 ->
  ntoh16 (total (hdr_of data)) <= len ->
  (ip_input h data len dev = [errorf "checksum validation failed"]
   <-> cksum16 data len 0 <> 0)
  /\ (cksum16 data len 0 = 0 ->
      forall (i : nat) (j : Z) (b b' : byte),
        Z.of_nat i < len -> data !! i = Some b ->
        0 <= j < 8 -> b2z b' = Z.lxor (b2z b) (2 ^ j) ->
        let log := ip_input h (<[i := b']> data) len dev in
        log = [errorf "version must be 4"]
        \/ log = [errorf "header total is too short"]
        \/ log = [errorf "checksum validation failed"]).
Proof.
  intros Hlen Hv Ht. split; [split |].
  - intros E Hz. revert E. unfold ip_input.
    next_test; [lia |]. next_test; [contradiction |].
    next_test; [ip_consts; lia |]. next_test; [lia |].
    next_test; [contradiction |]. next_test; [discriminate |].
    destruct (net_device_get_iface h dev NET_IFACE_FAMILY_IP); [| discriminate].
    cbv zeta. next_test; discriminate.
  - apply ip_input_cksum; assumption.
  - intros Hz i j b b' Hi Hb Hj Hflip log. subst log.
    pose proof (cksum16_detects_flip data len i j b b' Hz Hi Hb Hj Hflip) as Hnz.
    set (data' := <[i := b']> data) in *.
    destruct (Z.eq_dec (Z.shiftr (Z.land (vhl (hdr_of data')) 0xf0) 4)
                IP_VERSION_IPV4) as [Hv' | Hv'].
    + destruct (Z.lt_ge_cases len (ntoh16 (total (hdr_of data')))) as [Ht' | Ht'].
      * right. left. apply ip_input_total; assumption.
      * right. right. apply ip_input_cksum; assumption.
    + left. apply ip_input_version; assumption.
Qed.

(** At [pkt_unicast]: it passes the checksum step, and with the low bit of
    its time-to-live byte flipped it is rejected there. *)
Lemma ip_input_checksum_witness :
  @ip_input ref_collab sample_heap pkt_unicast 20 sample_dev
    <> [errorf "checksum validation failed"]
  /\ @ip_input ref_collab sample_heap (<[8%nat := x41]> pkt_unicast) 20 sample_dev
    = [errorf "checksum validation failed"].
Proof.
  assert (Hlen : IP_HDR_SIZE_MIN <= 20) by (unfold IP_HDR_SIZE_MIN; lia).
  assert (Hv : Z.shiftr (Z.land (vhl (hdr_of pkt_unicast)) 0xf0) 4 = IP_VERSION_IPV4)
    by (vm_compute; reflexivity).
  assert (Ht : ntoh16 (total (hdr_of pkt_unicast)) <= 20) by (vm_compute; congruence).
  assert (Hz : cksum16 pkt_unicast 20 0 = 0) by (vm_compute; reflexivity).
  destruct (@ip_input_checksum ref_collab sample_heap pkt_unicast 20 sample_dev
              Hlen Hv Ht) as [Hiff Hflip].
  split.
  - intros E. apply Hiff in E. apply E, Hz.
  - assert (Hi : Z.of_nat 8 < 20) by lia.
    assert (Hb : pkt_unicast !! 8%nat = Some x40) by reflexivity.
    assert (Hj : 0 <= 0 < 8) by lia.
    assert (Hx : b2z x41 = Z.lxor (b2z x40) (2 ^ 0)) by (vm_compute; reflexivity).
    destruct (Hflip Hz 8%nat 0 x40 x41 Hi Hb Hj Hx) as [E | [E | E]].
    + vm_compute in E. discriminate E.
    + vm_compute in E. discriminate E.
    + exact E.
Defined.

(** ** libc: what [strtol] consumes *)

Lemma digit_not_space (c : ascii) : isdigit c = true -> isspace c = false.
Proof.
  unfold isdigit, isspace. cbv zeta. intros Hd.
  apply andb_true_iff in Hd as [H1 H2].
  apply Nat.leb_le in H1. apply Nat.leb_le in H2.
  apply orb_false_iff. split.
  - apply Nat.eqb_neq. lia.
  - apply andb_false_iff. right. apply Nat.leb_gt. lia.
Qed.

Lemma digit_not_sign (c : ascii) :
  isdigit c = true -> Ascii.eqb c "-" = false /\ Ascii.eqb c "+" = false.
Proof.
  intros Hd. split; apply Ascii.eqb_neq; intros ->; discriminate Hd.
Qed.

Lemma deref_app_digits (ds r : list ascii) :
  ds <> [] -> forallb isdigit ds = true -> isdigit (deref (ds ++ r)) = true.
Proof.
  destruct ds as [| d ds]; [congruence |]. intros _ Hd.
  apply andb_true_iff in Hd as [Hd _]. exact Hd.
Qed.

Lemma skip_space_app (ws x : list ascii) :
  forallb isspace ws = true -> isspace (deref x) = false ->
  skip_space (ws ++ x) = x.
Proof.
  intros Hws Hx. induction ws as [| c ws IH].
  - destruct x as [| c x]; [reflexivity |]. cbn in *. now rewrite Hx.
  - apply andb_true_iff in Hws as [Hc Hws]. cbn. rewrite Hc. auto.
Qed.

Lemma skip_space_split (s : list ascii) :
  exists ws, s = ws ++ skip_space s /\ forallb isspace ws = true.
Proof.
  induction s as [| c s [ws [E Hws]]].
  - exists []. split; reflexivity.
  - cbn. destruct (isspace c) eqn:Hc.
    + exists (c :: ws). cbn. rewrite Hc, Hws. split; [congruence | reflexivity].
    + exists []. split; reflexivity.
Qed.

Lemma scan_digits_app (ds r : list ascii) :
  forall acc, forallb isdigit ds = true -> isdigit (deref r) = false ->
  scan_digits acc (ds ++ r)
  = (fold_left (fun a c => a * 10 + digit_val c) ds acc, r).
Proof.
  induction ds as [| d ds IH]; intros acc Hds Hr.
  - destruct r as [| c r]; [reflexivity |]. cbn in *. now rewrite Hr.
  - apply andb_true_iff in Hds as [Hd Hds]. cbn. rewrite Hd. apply IH; assumption.
Qed.

Lemma scan_digits_split (s : list ascii) :
  forall acc v ep, scan_digits acc s = (v, ep) ->
  exists ds, s = ds ++ ep /\ forallb isdigit ds = true
             /\ v = fold_left (fun a c => a * 10 + digit_val c) ds acc.
Proof.
  induction s as [| c s IH]; intros acc v ep E.
  - injection E as <- <-. exists []. repeat split.
  - cbn in E. destruct (isdigit c) eqn:Hc.
    + destruct (IH _ _ _ E) as (ds & -> & Hds & ->).
      exists (c :: ds). cbn. rewrite Hc, Hds. repeat split.
    + injection E as <- <-. exists []. repeat split.
Qed.

(** [strtol] on a segment with an octet value, followed by something that
    is no digit: the value is the octet and the end pointer stands right
    behind the segment. *)
Lemma strtol_octet (s r : list ascii) (v : Z) :
  octet s v -> isdigit (deref r) = false -> strtol (s ++ r) = (v, r).
Proof.
  intros [Hseg Hv] Hr. unfold strtol, LONG_MAX, LONG_MIN.
  destruct Hseg as [ws ds Hws Hne Hds | ws ds Hws Hne Hds | ws ds Hws Hne Hds];
    rewrite <- app_assoc.
  - pose proof (deref_app_digits ds r Hne Hds) as Hd.
    rewrite skip_space_app by (auto using digit_not_space).
    destruct (ds ++ r) as [| c x] eqn:E; [discriminate Hd |].
    cbn [deref] in Hd. destruct (digit_not_sign c Hd) as [-> ->].
    cbn [deref]. rewrite Hd. rewrite <- E.
    rewrite scan_digits_app by assumption. fold (dec_value ds).
    f_equal. lia.
  - rewrite <- app_comm_cons. rewrite skip_space_app by (auto; reflexivity).
    change (Ascii.eqb "+" "-") with false. change (Ascii.eqb "+" "+") with true.
    cbv iota beta. rewrite (deref_app_digits ds r Hne Hds).
    rewrite scan_digits_app by assumption. fold (dec_value ds).
    f_equal. lia.
  - rewrite <- app_comm_cons. rewrite skip_space_app by (auto; reflexivity).
    change (Ascii.eqb "-" "-") with true.
    cbv iota beta. rewrite (deref_app_digits ds r Hne Hds).
    rewrite scan_digits_app by assumption. fold (dec_value ds).
    f_equal. lia.
Qed.

(** Conversely, when [strtol] converts something and the value is an octet,
    what it consumed is a segment with that value. *)
Lemma strtol_inv (sp ep : list ascii) (ret : Z) :
  strtol sp = (ret, ep) -> 0 <= ret <= 255 -> length ep <> length sp ->
  exists s, sp = s ++ ep /\ octet s ret.
Proof.
  unfold strtol, LONG_MAX, LONG_MIN. intros E Hret Hlen.
  destruct (skip_space_split sp) as (ws & Esp & Hws).
  destruct (skip_space sp) as [| c x] eqn:Es.
  { cbn in E. injection E as <- <-. congruence. }
  assert (Hconv : forall (neg : bool) (s2 : list ascii),
    (if isdigit (deref s2)
     then let '(v, ep0) := scan_digits 0 s2 in
          (if neg then Z.max (- 2 ^ 63) (- v) else Z.min (2 ^ 63 - 1) v, ep0)
     else (0, sp)) = (ret, ep) ->
    exists ds, s2 = ds ++ ep /\ ds <> [] /\ forallb isdigit ds = true
               /\ ret = if neg then - dec_value ds else dec_value ds).
  { intros neg s2 E2. destruct (isdigit (deref s2)) eqn:Hd.
    - destruct (scan_digits 0 s2) as [v ep0] eqn:Esc. injection E2 as E2 <-.
      destruct (scan_digits_split _ _ _ _ Esc) as (ds & -> & Hds & ->).
      fold (dec_value ds) in E2. exists ds. repeat split; try assumption.
      + intros ->. cbn in Esc. cbn [app] in Hd.
        destruct ep0 as [| c0 y]; [discriminate Hd |].
        cbn in Esc, Hd. rewrite Hd in Esc.
        destruct (scan_digits_split _ _ _ _ Esc) as (ds' & Ey & _).
        apply (f_equal length) in Ey. rewrite length_app in Ey. cbn in Ey. lia.
      + destruct neg; lia.
    - injection E2 as <- <-. congruence. }
  destruct (Ascii.eqb c "-") eqn:Hm; [| destruct (Ascii.eqb c "+") eqn:Hp].
  - apply Ascii.eqb_eq in Hm as ->.
    destruct (Hconv true x E) as (ds & -> & Hne & Hds & ->).
    exists (ws ++ "-"%char :: ds). split.
    + rewrite Esp at 1. now rewrite <- app_assoc.
    + split; [now constructor | assumption].
  - apply Ascii.eqb_eq in Hp as ->.
    destruct (Hconv false x E) as (ds & -> & Hne & Hds & ->).
    exists (ws ++ "+"%char :: ds). split.
    + rewrite Esp at 1. now rewrite <- app_assoc.
    + split; [now constructor | assumption].
  - destruct (Hconv false (c :: x) E) as (ds & Ex & Hne & Hds & ->).
    exists (ws ++ ds). split.
    + rewrite Esp at 1. rewrite Ex. now rewrite <- app_assoc.
    + split; [now constructor | assumption].
Qed.

(** ** Octets of a 32-bit value *)

Lemma land_0xff (x : Z) : Z.land x 0xff = x mod 256.
Proof.
  change 0xff with (Z.ones 8). rewrite Z.land_ones by lia. reflexivity.
Qed.

Lemma u8_get_range (n i : Z) : 0 <= u8_get n i <= 255.
Proof.
  unfold u8_get. rewrite land_0xff.
  pose proof (Z.mod_pos_bound (Z.shiftr n (8 * i)) 256). lia.
Qed.

Lemma testbit_u8_get (n i k : Z) :
  0 <= k -> Z.testbit (u8_get n i) k = (k <? 8) && Z.testbit n (k + 8 * i).
Proof.
  intros Hk. unfold u8_get. change 0xff with (Z.ones 8).
  rewrite Z.land_spec, Z.shiftr_spec, Z.testbit_ones_nonneg by lia.
  apply andb_comm.
Qed.

Lemma testbit_u8_set (n i v k : Z) :
  0 <= i -> 0 <= k ->
  Z.testbit (u8_set n i v) k
  = if (8 * i <=? k) && (k <? 8 * i + 8) then Z.testbit v (k - 8 * i)
    else Z.testbit n k.
Proof.
  intros Hi Hk. unfold u8_set. change 0xff with (Z.ones 8). change 256 with (2 ^ 8).
  rewrite Z.lor_spec, Z.land_spec, Z.lnot_spec, !Z.shiftl_spec by lia.
  rewrite Z.testbit_ones, Z.testbit_mod_pow2 by lia.
  destruct (8 * i <=? k) eqn:E1; destruct (k <? 8 * i + 8) eqn:E2; bool_hyps; cbn [andb].
  - replace (0 <=? k - 8 * i) with true by (symmetry; apply Z.leb_le; lia).
    replace (k - 8 * i <? 8) with true by (symmetry; apply Z.ltb_lt; lia).
    cbn. now rewrite andb_false_r.
  - replace (k - 8 * i <? 8) with false by (symmetry; apply Z.ltb_ge; lia).
    rewrite andb_false_r. cbn. now rewrite andb_true_r, orb_false_r.
  - replace (0 <=? k - 8 * i) with false by (symmetry; apply Z.leb_gt; lia).
    cbn. rewrite andb_true_r. rewrite (Z.testbit_neg_r v) by lia.
    now rewrite andb_false_r, orb_false_r.
  - lia.
Qed.

Lemma testbit_above_32 (a k : Z) : 0 <= a < 2 ^ 32 -> 32 <= k -> Z.testbit a k = false.
Proof.
  intros Ha Hk.
  apply (proj1 (Z.bounded_iff_bits_nonneg 32 a ltac:(lia) ltac:(lia))); lia.
Qed.

(** Decides the comparisons of the goal that linear arithmetic settles. *)
Ltac decide_cmp :=
  repeat match goal with
  | |- context [?a <=? ?b] =>
      first [ replace (a <=? b) with true by (symmetry; apply Z.leb_le; lia)
            | replace (a <=? b) with false by (symmetry; apply Z.leb_gt; lia) ]
  | |- context [?a <? ?b] =>
      first [ replace (a <? b) with true by (symmetry; apply Z.ltb_lt; lia)
            | replace (a <? b) with false by (symmetry; apply Z.ltb_ge; lia) ]
  end.

(** Storing the four octets of [a] over a 32-bit object gives [a]. *)
Lemma write_octets_get (a n : Z) :
  0 <= a < 2 ^ 32 -> 0 <= n < 2 ^ 32 ->
  write_octets n 0 [u8_get a 0; u8_get a 1; u8_get a 2; u8_get a 3] = a.
Proof.
  intros Ha Hn. cbn [write_octets]. apply Z.bits_inj'. intros k Hk.
  change (0 + 1) with 1. change (1 + 1) with 2. change (2 + 1) with 3.
  rewrite !testbit_u8_set by lia.
  assert (k < 8 \/ 8 <= k < 16 \/ 16 <= k < 24 \/ 24 <= k < 32 \/ 32 <= k)
    as [Hc | [Hc | [Hc | [Hc | Hc]]]] by lia;
    decide_cmp; cbn [andb];
    try (rewrite testbit_u8_get by lia; decide_cmp; cbn [andb]; f_equal; lia).
  rewrite (testbit_above_32 a k), (testbit_above_32 n k) by lia. reflexivity.
Qed.

(** A store to one byte leaves the other bytes as they are. *)
Lemma u8_get_set_other (n i j v : Z) :
  0 <= i -> 0 <= j -> i <> j -> u8_get (u8_set n i v) j = u8_get n j.
Proof.
  intros Hi Hj Hne. apply Z.bits_inj'. intros k Hk.
  rewrite !testbit_u8_get by lia.
  destruct (Z.ltb_spec k 8); cbn [andb]; [| reflexivity].
  rewrite testbit_u8_set by lia.
  replace ((8 * i <=? k + 8 * j) && (k + 8 * j <? 8 * i + 8)) with false;
    [reflexivity |].
  symmetry. apply andb_false_iff.
  destruct (Z.lt_ge_cases j i); [left; apply Z.leb_gt | right; apply Z.ltb_ge]; lia.
Qed.


(** ** [ip_addr_pton], one iteration at a time *)

Lemma segment_nonempty (s : list ascii) (v : Z) : segment s v -> (0 < length s)%nat.
Proof.
  intros [ws ds _ Hne _ | ws ds _ _ _ | ws ds _ _ _]; rewrite length_app; cbn; try lia.
  destruct ds; [congruence | cbn; lia].
Qed.

Lemma deref_cons (r : list ascii) (c : ascii) :
  deref r = c -> c <> NUL -> r = c :: tl r.
Proof.
  destruct r as [| c' r]; cbn; intros E Hc; congruence.
Qed.

Lemma follows_not_digit (idx : Z) (r : list ascii) :
  follows idx r -> isdigit (deref r) = false.
Proof.
  unfold follows. destruct (idx =? 3); intros ->; reflexivity.
Qed.

Lemma pton_step_ok (k : nat) (idx : Z) (s r : list ascii) (v n : Z) :
  octet s v -> follows idx r ->
  pton_loop (S k) idx (s ++ r) n = pton_loop k (idx + 1) (tl r) (u8_set n idx v).
Proof.
  intros Ho Hf. cbn [pton_loop].
  rewrite (strtol_octet s r v Ho (follows_not_digit idx r Hf)).
  destruct Ho as [Hseg Hv]. apply segment_nonempty in Hseg.
  replace ((v <? 0) || (255 <? v))%bool with false
    by (symmetry; apply orb_false_iff; split; [apply Z.ltb_ge | apply Z.ltb_ge]; lia).
  replace (Nat.eqb (length r) (length (s ++ r))) with false
    by (symmetry; apply Nat.eqb_neq; rewrite length_app; lia).
  unfold follows in Hf. destruct (idx =? 3); rewrite Hf; reflexivity.
Qed.

Lemma pton_step_inv (k : nat) (idx : Z) (sp : list ascii) (n : Z) :
  pton_loop (S k) idx sp n = (-1, n)
  \/ exists s r v,
       sp = s ++ r /\ octet s v /\ follows idx r
       /\ pton_loop (S k) idx sp n
          = pton_loop k (idx + 1) (tl r) (u8_set n idx v).
Proof.
  cbn [pton_loop]. destruct (strtol sp) as [ret ep] eqn:E.
  destruct ((ret <? 0) || (255 <? ret))%bool eqn:Hr; [now left |].
  destruct (Nat.eqb (length ep) (length sp)) eqn:Hl; [now left |].
  bool_hyps. apply Nat.eqb_neq in Hl.
  destruct (strtol_inv sp ep ret E ltac:(lia) Hl) as (s & -> & Ho).
  destruct (((idx =? 3) && negb (Ascii.eqb (deref ep) NUL))
            || (negb (idx =? 3) && negb (Ascii.eqb (deref ep) "."))) eqn:Hc;
    [now left |].
  right. exists s, ep, ret.
  split; [reflexivity |]. split; [exact Ho |]. split; [| reflexivity].
  unfold follows. destruct (idx =? 3); cbn in Hc.
  - rewrite orb_false_r in Hc. apply negb_false_iff, Ascii.eqb_eq in Hc. exact Hc.
  - apply negb_false_iff, Ascii.eqb_eq in Hc. exact Hc.
Qed.

Lemma pton_loop_ret (k : nat) :
  forall idx sp n,
  fst (pton_loop k idx sp n) = 0 \/ fst (pton_loop k idx sp n) = -1.
Proof.
  induction k as [| k IH]; intros idx sp n; [now left |].
  destruct (pton_step_inv k idx sp n) as [-> | (s & r & v & _ & _ & _ & ->)];
    [now right | apply IH].
Qed.


Lemma pton_of_quad (p : list ascii) (n v0 v1 v2 v3 : Z) :
  dotted_quad p v0 v1 v2 v3 ->
  ip_addr_pton p n = (0, write_octets n 0 [v0; v1; v2; v3]).
Proof.
  intros (rest & s3 & tail & Hlead & -> & O3 & Htail).
  destruct Hlead as (s0 & r0 & -> & O0 & s1 & r1 & -> & O1 & s2 & r2 & -> & O2 & <-).
  unfold ip_addr_pton.
  rewrite (pton_step_ok 3 0 s0 _ v0 n O0) by reflexivity.
  cbn [tl]. change (0 + 1) with 1.
  rewrite (pton_step_ok 2 1 s1 _ v1 _ O1) by reflexivity.
  cbn [tl]. change (1 + 1) with 2.
  rewrite (pton_step_ok 1 2 s2 _ v2 _ O2) by reflexivity.
  cbn [tl]. change (2 + 1) with 3.
  rewrite (pton_step_ok 0 3 s3 _ v3 _ O3) by exact Htail.
  reflexivity.
Qed.

Lemma quad_of_pton (p : list ascii) (n : Z) :
  fst (ip_addr_pton p n) = 0 -> exists v0 v1 v2 v3, dotted_quad p v0 v1 v2 v3.
Proof.
  unfold ip_addr_pton. intros Hok.
  destruct (pton_step_inv 3 0 p n) as [E | (s0 & r0 & v0 & -> & O0 & F0 & E)];
    rewrite E in Hok; [discriminate Hok |].
  apply deref_cons in F0; [| discriminate]. change (0 + 1) with 1 in Hok.
  destruct (pton_step_inv 2 1 (tl r0) (u8_set n 0 v0))
    as [E1 | (s1 & r1 & v1 & Er0 & O1 & F1 & E1)];
    rewrite E1 in Hok; [discriminate Hok |].
  apply deref_cons in F1; [| discriminate]. change (1 + 1) with 2 in Hok.
  destruct (pton_step_inv 1 2 (tl r1) (u8_set (u8_set n 0 v0) 1 v1))
    as [E2 | (s2 & r2 & v2 & Er1 & O2 & F2 & E2)];
    rewrite E2 in Hok; [discriminate Hok |].
  apply deref_cons in F2; [| discriminate]. change (2 + 1) with 3 in Hok.
  destruct (pton_step_inv 0 3 (tl r2) (u8_set (u8_set (u8_set n 0 v0) 1 v1) 2 v2))
    as [E3 | (s3 & r3 & v3 & Er2 & O3 & F3 & E3)];
    rewrite E3 in Hok; [discriminate Hok |].
  exists v0, v1, v2, v3, (tl r2), s3, r3.
  split; [| split; [exact Er2 | split; [exact O3 | exact F3]]].
  exists s0, (tl r0). rewrite <- F0. split; [reflexivity | split; [exact O0 |]].
  exists s1, (tl r1). rewrite Er0, <- F1. split; [reflexivity | split; [exact O1 |]].
  exists s2, (tl r2). rewrite Er1, <- F2. split; [reflexivity | split; [exact O2 |]].
  reflexivity.
Qed.

(** A string of digits that denotes an octet is a segment. *)
Lemma octet_digits (ds : list ascii) (v : Z) :
  forallb isdigit ds = true -> ds <> [] -> dec_value ds = v -> 0 <= v <= 255 ->
  octet ds v.
Proof.
  intros Hds Hne <- Hv. split; [| exact Hv].
  exact (segment_plain [] ds eq_refl Hne Hds).
Qed.




(** ** [%d] of an octet, and the text [ip_addr_ntop] formats *)

Lemma fmt_ok_octet (b : Z) : 0 <= b <= 255 -> fmt_ok b = true.
Proof.
  intros Hb.
  assert (Hall : forallb fmt_ok (map Z.of_nat (seq 0 256)) = true)
    by (vm_compute; reflexivity).
  rewrite forallb_forall in Hall. apply Hall.
  apply in_map_iff. exists (Z.to_nat b). split; [lia |]. apply in_seq. lia.
Qed.

Lemma fmt_d_octet (b : Z) :
  0 <= b <= 255 ->
  forallb isdigit (fmt_d b) = true /\ fmt_d b <> []
  /\ (length (fmt_d b) <= 3)%nat /\ dec_value (fmt_d b) = b.
Proof.
  intros Hb. pose proof (fmt_ok_octet b Hb) as Hok. unfold fmt_ok in Hok.
  apply andb_true_iff in Hok as [Hok Hv]. apply andb_true_iff in Hok as [Hok Hl].
  apply andb_true_iff in Hok as [Hd Hn].
  apply Z.eqb_eq in Hv. apply Nat.leb_le in Hl.
  apply negb_true_iff, Nat.eqb_neq in Hn.
  repeat split; try assumption. intros E. rewrite E in Hn. now apply Hn.
Qed.

Lemma octet_fmt_d (b : Z) : 0 <= b <= 255 -> octet (fmt_d b) b.
Proof.
  intros Hb. destruct (fmt_d_octet b Hb) as (Hd & Hn & _ & Hv).
  apply octet_digits; assumption.
Qed.

Lemma ntop_text_length (n : Z) : (length (ntop_text n) <= 15)%nat.
Proof.
  unfold ntop_text.
  destruct (fmt_d_octet _ (u8_get_range n 0)) as (_ & _ & H0 & _).
  destruct (fmt_d_octet _ (u8_get_range n 1)) as (_ & _ & H1 & _).
  destruct (fmt_d_octet _ (u8_get_range n 2)) as (_ & _ & H2 & _).
  destruct (fmt_d_octet _ (u8_get_range n 3)) as (_ & _ & H3 & _).
  repeat (rewrite length_app; cbn [length]). lia.
Qed.

(** The formatted text, followed by the end of the string, is a dotted
    quad of the four octets. *)
Lemma ntop_text_quad (n : Z) (tail : list ascii) :
  deref tail = NUL ->
  dotted_quad (ntop_text n ++ tail)
    (u8_get n 0) (u8_get n 1) (u8_get n 2) (u8_get n 3).
Proof.
  intros Htail. unfold ntop_text.
  exists (fmt_d (u8_get n 3) ++ tail), (fmt_d (u8_get n 3)), tail.
  split; [| split; [reflexivity | split; [| exact Htail]]].
  - repeat (rewrite <- app_assoc; rewrite <- app_comm_cons).
    eexists _, _. split; [reflexivity | split;
      [apply octet_fmt_d, u8_get_range |]].
    eexists _, _. split; [reflexivity | split;
      [apply octet_fmt_d, u8_get_range |]].
    eexists _, _. split; [reflexivity | split;
      [apply octet_fmt_d, u8_get_range |]].
    reflexivity.
  - apply octet_fmt_d, u8_get_range.
Qed.

Lemma digit_not_nul (c : ascii) : isdigit c = true -> negb (Ascii.eqb c NUL) = true.
Proof.
  intros Hd. apply negb_true_iff, Ascii.eqb_neq. intros ->. discriminate Hd.
Qed.

Lemma digits_no_nul (ds : list ascii) : forallb isdigit ds = true -> no_nul ds = true.
Proof.
  unfold no_nul. induction ds as [| d ds IH]; [reflexivity |]. cbn.
  intros Hd. apply andb_true_iff in Hd as [Hd Hds].
  now rewrite (digit_not_nul d Hd), IH.
Qed.

Lemma ntop_text_no_nul (n : Z) : no_nul (ntop_text n) = true.
Proof.
  unfold ntop_text, no_nul.
  repeat (rewrite forallb_app; cbn [forallb]).
  fold (no_nul (fmt_d (u8_get n 0))). fold (no_nul (fmt_d (u8_get n 1))).
  fold (no_nul (fmt_d (u8_get n 2))). fold (no_nul (fmt_d (u8_get n 3))).
  rewrite !digits_no_nul by (apply fmt_d_octet, u8_get_range). reflexivity.
Qed.

Lemma no_nul_take (k : nat) (w : list ascii) : no_nul w = true -> no_nul (take k w) = true.
Proof.
  unfold no_nul. revert k. induction w as [| c w IH]; intros [| k] Hw; try reflexivity.
  cbn in *. apply andb_true_iff in Hw as [-> Hw]. cbn. auto.
Qed.

(** Reading back what [snprintf] stored: the characters before the NUL. *)
Lemma cstring_app_nul (w x : list ascii) :
  no_nul w = true -> cstring (w ++ NUL :: x) = w.
Proof.
  unfold no_nul. induction w as [| c w IH]; intros Hw.
  - reflexivity.
  - cbn in *. apply andb_true_iff in Hw as [Hc Hw].
    apply negb_true_iff in Hc. rewrite Hc. now rewrite IH.
Qed.

(** ** [ip_addr_ntop] and the round trip *)

Lemma snprintf_stores (mem : list ascii) (size : Z) (out : list ascii) :
  1 <= size ->
  snprintf mem size out
  = take (Z.to_nat (size - 1)) out
    ++ NUL :: drop (S (length (take (Z.to_nat (size - 1)) out))) mem.
Proof.
  intros Hs. unfold snprintf.
  replace (size <=? 0) with false by (symmetry; apply Z.leb_gt; lia).
  reflexivity.
Qed.

Lemma drop_past_middle {A : Type} (w : list A) (c : A) (x : list A) :
  drop (S (length w)) (w ++ c :: x) = x.
Proof.
  induction w as [| a w IH]; [reflexivity | exact IH].
Qed.

(** C9: an address formatted into a buffer of at least 16 bytes and parsed
    back is the address: [ip_addr_pton] returns 0 and stores exactly [a]. *)
Theorem ip_addr_pton_ntop (a n : Z) (p : nat) (mem : list ascii) (size : Z) :
  0 <= a < 2 ^ 32 -> 0 <= n < 2 ^ 32 -> 16 <= size ->
  ip_addr_pton (snd (ip_addr_ntop a p mem size)) n = (0, a).
Proof.
  intros Ha Hn Hs. unfold ip_addr_ntop. cbn [snd].
  rewrite snprintf_stores by lia.
  pose proof (ntop_text_length a) as Hl.
  rewrite take_ge by lia.
  rewrite (pton_of_quad _ n _ _ _ _
             (ntop_text_quad a (NUL :: drop (S (length (ntop_text a))) mem) eq_refl)).
  now rewrite write_octets_get.
Qed.

(** C9 at 192.168.1.10, formatted into 16 bytes. *)
Lemma ip_addr_pton_ntop_witness :
  cstring (snd (ip_addr_ntop 0x0a01a8c0 0%nat (repeat NUL 16) 16)) = chars "192.168.1.10"
  /\ ip_addr_pton (snd (ip_addr_ntop 0x0a01a8c0 0%nat (repeat NUL 16) 16)) 0
     = (0, 0x0a01a8c0).
Proof.
  split; [reflexivity |].
  apply (ip_addr_pton_ntop 0x0a01a8c0 0 0%nat (repeat NUL 16) 16); lia.
Defined.

(** C10: [ip_addr_ntop] has no error result: it returns the buffer pointer
    it was given, whatever the address and the size.  With size 0 nothing is
    stored.  With a size of at least 1 the buffer holds the first [size - 1]
    characters of the text (all of it when it is that short) followed by a
    NUL within the first [size] bytes; the bytes behind the NUL are kept and
    a buffer of at least [size] bytes keeps its length. *)
Theorem ip_addr_ntop_truncates (n : Z) (p : nat) (mem : list ascii) (size : Z) :
  fst (ip_addr_ntop n p mem size) = p
  /\ (size <= 0 -> snd (ip_addr_ntop n p mem size) = mem)
  /\ (1 <= size ->
      let out := snd (ip_addr_ntop n p mem size) in
      let w := take (Z.to_nat (size - 1)) (ntop_text n) in
      cstring out = w
      /\ out !! length w = Some NUL
      /\ (length w < Z.to_nat size)%nat
      /\ drop (S (length w)) out = drop (S (length w)) mem
      /\ ((Z.to_nat size <= length mem)%nat -> length out = length mem)).
Proof.
  split; [reflexivity | split].
  - intros Hs. unfold ip_addr_ntop, snprintf. cbn [snd].
    replace (size <=? 0) with true by (symmetry; apply Z.leb_le; lia).
    reflexivity.
  - intros Hs out w. subst out. unfold ip_addr_ntop. cbn [snd].
    rewrite snprintf_stores by lia. fold w.
    assert (Hw : (length w <= Z.to_nat (size - 1))%nat).
    { unfold w. rewrite length_take. lia. }
    split; [| split; [| split; [| split]]].
    + apply cstring_app_nul. apply no_nul_take, ntop_text_no_nul.
    + apply list_lookup_middle. reflexivity.
    + lia.
    + apply drop_past_middle.
    + intros Hm. rewrite length_app. cbn [length]. rewrite length_drop. lia.
Qed.

(** C10 at 192.168.1.10 and size 5: "192." and a NUL are stored, the other
    eleven bytes of the buffer are kept. *)
Lemma ip_addr_ntop_truncates_witness :
  cstring (snd (ip_addr_ntop 0x0a01a8c0 7%nat (repeat "x"%char 16) 5)) = chars "192."
  /\ length (snd (ip_addr_ntop 0x0a01a8c0 7%nat (repeat "x"%char 16) 5)) = 16%nat.
Proof.
  pose proof (ip_addr_ntop_truncates 0x0a01a8c0 7%nat (repeat "x"%char 16) 5)
    as (_ & _ & H).
  destruct (H ltac:(lia)) as (Hc & _ & _ & _ & Hl). split.
  - exact Hc.
  - apply Hl. cbn. lia.
Defined.

(** ** The object [ip_addr_pton] stores to

    Whether [ip_addr_pton] succeeds does not depend on what the output held
    before, and on success neither does the output: the callers may pass an
    object that was never initialised. *)

Lemma pton_loop_fst_indep (k : nat) :
  forall idx sp n n', fst (pton_loop k idx sp n) = fst (pton_loop k idx sp n').
Proof.
  induction k as [| k IH]; intros idx sp n n'; [reflexivity |].
  cbn [pton_loop]. destruct (strtol sp) as [ret ep].
  repeat (next_test; [reflexivity |]). apply IH.
Qed.

Lemma write_octets_full (n n' v0 v1 v2 v3 : Z) :
  0 <= n < 2 ^ 32 -> 0 <= n' < 2 ^ 32 ->
  write_octets n 0 [v0; v1; v2; v3] = write_octets n' 0 [v0; v1; v2; v3].
Proof.
  intros Hn Hn'. cbn [write_octets]. apply Z.bits_inj'. intros k Hk.
  change (0 + 1) with 1. change (1 + 1) with 2. change (2 + 1) with 3.
  rewrite !testbit_u8_set by lia.
  assert (k < 8 \/ 8 <= k < 16 \/ 16 <= k < 24 \/ 24 <= k < 32 \/ 32 <= k)
    as [Hc | [Hc | [Hc | [Hc | Hc]]]] by lia;
    decide_cmp; cbn [andb]; try reflexivity.
  rewrite (testbit_above_32 n k), (testbit_above_32 n' k) by lia. reflexivity.
Qed.

Lemma ip_addr_pton_overwrites (p : list ascii) (n n' : Z) :
  0 <= n < 2 ^ 32 -> 0 <= n' < 2 ^ 32 ->
  fst (ip_addr_pton p n) = 0 -> ip_addr_pton p n = ip_addr_pton p n'.
Proof.
  intros Hn Hn' Hok.
  destruct (quad_of_pton p n Hok) as (v0 & v1 & v2 & v3 & Hq).
  rewrite (pton_of_quad p n v0 v1 v2 v3 Hq), (pton_of_quad p n' v0 v1 v2 v3 Hq).
  f_equal. now apply write_octets_full.
Qed.

(** ** The interface registry *)

Lemma broadcast_of_testbit (uni mask k : Z) :
  0 <= k < 32 ->
  Z.testbit (broadcast_of uni mask) k
  = (Z.testbit uni k && Z.testbit mask k) || negb (Z.testbit mask k).
Proof.
  intros Hk. unfold broadcast_of.
  rewrite Z.lor_spec, Z.land_spec, Z.testbit_mod_pow2, Z.lnot_spec by lia.
  replace (k <? 32) with true by (symmetry; apply Z.ltb_lt; lia).
  reflexivity.
Qed.

Lemma ip_addr_pton_ret (p : list ascii) (n : Z) :
  fst (ip_addr_pton p n) = 0 \/ fst (ip_addr_pton p n) = -1.
Proof. apply pton_loop_ret. Qed.

(** Freeing the object that was just allocated gives back the heap, however
    often the object was stored to in between. *)
Lemma memory_free_fresh (h : heap) (p : ptr) (i : ip_iface) :
  h !! p = None -> memory_free (<[p := i]> h) p = h.
Proof.
  intros Hp. unfold memory_free. now apply delete_insert_id.
Qed.

Lemma store_insert (h : heap) (p : ptr) (i : ip_iface) (f : ip_iface -> ip_iface) :
  store (<[p := i]> h) p f = <[p := f i]> h.
Proof.
  unfold store, iface_at. rewrite lookup_insert_eq. cbn [default].
  apply insert_insert_eq.
Qed.

(** C7: when either text fails to parse, [ip_iface_alloc] returns [NULL] and
    leaves the heap as it found it, the object it had allocated freed again;
    when it returns an interface, both texts parsed and the interface holds
    the two addresses and [broadcast = (unicast & netmask) | ~netmask] on 32
    bits, bit by bit. *)
Theorem ip_iface_alloc_spec `{Collaborators} (h : heap) (u m : list ascii) :
  (fst (ip_addr_pton u 0) = -1 \/ fst (ip_addr_pton m 0) = -1 ->
   (ip_iface_alloc h u m).1.1 = None /\ (ip_iface_alloc h u m).1.2 = h)
  /\ (forall p, (ip_iface_alloc h u m).1.1 = Some p ->
      fst (ip_addr_pton u 0) = 0 /\ fst (ip_addr_pton m 0) = 0
      /\ exists i,
           (ip_iface_alloc h u m).1.2 !! p = Some i
           /\ family i = NET_IFACE_FAMILY_IP
           /\ unicast i = snd (ip_addr_pton u 0)
           /\ netmask i = snd (ip_addr_pton m 0)
           /\ broadcast i
              = Z.lor (Z.land (unicast i) (netmask i)) (Z.lnot (netmask i) mod 2 ^ 32)
           /\ forall k, 0 <= k < 32 ->
                Z.testbit (broadcast i) k
                = (Z.testbit (unicast i) k && Z.testbit (netmask i) k)
                  || negb (Z.testbit (netmask i) k)).
Proof.
  unfold ip_iface_alloc.
  destruct (memory_alloc h) as [q |] eqn:Ea.
  2: { split; [intros _; split; reflexivity | intros p [=]]. }
  pose proof (memory_alloc_fresh h q Ea) as Hq.
  rewrite !store_insert.
  destruct (ip_addr_pton_ret u 0) as [Hu | Hu];
    destruct (ip_addr_pton u 0) as [r1 uni]; cbn [fst snd] in *; subst r1;
    cbn [Z.eqb]; [| split; [intros _; split;
                   [reflexivity | now apply memory_free_fresh] | intros p [=]]].
  rewrite !store_insert.
  destruct (ip_addr_pton_ret m 0) as [Hm | Hm];
    destruct (ip_addr_pton m 0) as [r2 mask]; cbn [fst snd] in *; subst r2;
    cbn [Z.eqb]; [| split; [intros _; split;
                   [reflexivity | now apply memory_free_fresh] | intros p [=]]].
  rewrite !store_insert. cbn [fst snd]. split.
  - intros [[=] | [=]].
  - intros p [= <-]. split; [reflexivity | split; [reflexivity |]].
    eexists. split; [apply lookup_insert_eq |].
    cbn. repeat split. intros k Hk. now apply broadcast_of_testbit.
Qed.

(** With the allocator out of memory nothing is parsed and nothing
    changes. *)
Lemma ip_iface_alloc_oom (h : heap) (u m : list ascii) :
  @ip_iface_alloc oom_collab h u m = (None, h, [errorf "memory_alloc() failure"]).
Proof. reflexivity. Qed.

(** C7 with the reference allocator: 192.168.1.10 with mask 255.255.255.0
    gets the broadcast address 192.168.1.255, and a unicast text that does
    not parse leaves the heap empty. *)
Lemma ip_iface_alloc_spec_witness :
  (exists i,
      (@ip_iface_alloc ref_collab ∅ (chars "192.168.1.10") (chars "255.255.255.0")).1.2
        !! 0%nat = Some i
      /\ snd (ip_addr_pton (chars "192.168.1.255") 0) = broadcast i)
  /\ (@ip_iface_alloc ref_collab ∅ (chars "192.168.1.256") (chars "255.255.255.0")).1.2
     = ∅.
Proof.
  split.
  - destruct (proj2 (@ip_iface_alloc_spec ref_collab ∅ (chars "192.168.1.10")
                       (chars "255.255.255.0")) 0%nat)
      as (_ & _ & i & Hi & _ & Hu & Hm & Hb & _).
    + vm_compute. reflexivity.
    + exists i. split; [exact Hi |]. rewrite Hb, Hu, Hm. vm_compute. reflexivity.
  - apply (proj1 (@ip_iface_alloc_spec ref_collab ∅ (chars "192.168.1.256")
                    (chars "255.255.255.0"))).
    left. vm_compute. reflexivity.
Defined.

(** [ip_iface_register] does not assign the list head [ifaces]. *)
Lemma ip_iface_register_keeps_ifaces `{Collaborators} (w : world) (dev : net_device)
    (iface : ptr) :
  ifaces (ip_iface_register w dev iface).1.1.2 = ifaces w.
Proof.
  unfold ip_iface_register.
  destruct (net_device_add_iface (objs w) dev iface) as [[h1 dev1] |]; reflexivity.
Qed.

Lemma register_seq_keeps_ifaces `{Collaborators} (regs : list (net_device * ptr)) :
  forall w, ifaces (register_seq w regs) = ifaces w.
Proof.
  induction regs as [| [dev iface] regs IH]; intros w; [reflexivity |].
  cbn [register_seq]. rewrite IH. apply ip_iface_register_keeps_ifaces.
Qed.

(** With an empty list [ip_iface_select] finds nothing, whatever the
    address. *)
Lemma ip_iface_select_empty (fuel : nat) (w : world) (addr : Z) :
  ifaces w = None ->
  ip_iface_select fuel w addr
  = Some (None, [warnf "not found device which has specified addr"]).
Proof.
  intros E. unfold ip_iface_select. rewrite E. destruct fuel; reflexivity.
Qed.

(** Whatever is registered after start-up, with whatever device layer,
    every lookup ends in "not found". *)
Lemma ip_iface_select_after_registrations `{Collaborators} (h : heap)
    (regs : list (net_device * ptr)) (fuel : nat) (addr : Z) :
  ip_iface_select fuel (register_seq {| objs := h; ifaces := None |} regs) addr
  = Some (None, [warnf "not found device which has specified addr"]).
Proof.
  apply ip_iface_select_empty. now rewrite register_seq_keeps_ifaces.
Qed.

(** C3 (the code departs from the claim).  In the setup run the
    registration succeeds and the device's list holds the interface with
    unicast address 192.0.2.10, but the registry's own list is still empty:
    [ip_iface_select] of 192.0.2.10 returns [NULL]. *)
Theorem ip_iface_select_misses_registered :
  exists w dev log,
    setup_register = Some (0, w, dev, log)
    /\ dev_ifaces dev = Some 0%nat
    /\ unicast (iface_at (objs w) 0%nat) = snd (ip_addr_pton (chars "192.0.2.10") 0)
    /\ ifaces w = None
    /\ forall fuel,
         ip_iface_select fuel w (snd (ip_addr_pton (chars "192.0.2.10") 0))
         = Some (None, [warnf "not found device which has specified addr"]).
Proof.
  eexists _, _, _. split; [vm_compute; reflexivity |].
  split; [reflexivity |]. split; [vm_compute; reflexivity |].
  split; [reflexivity |]. intros fuel. now apply ip_iface_select_empty.
Qed.

(** * Further properties of ip.c *)

(** ** [ip_addr_pton]: where the octets go *)

Lemma u8_get_set_same (n i v : Z) : 0 <= i -> u8_get (u8_set n i v) i = v mod 256.
Proof.
  intros Hi. apply Z.bits_inj'. intros k Hk.
  rewrite testbit_u8_get by lia. change 256 with (2 ^ 8).
  rewrite Z.testbit_mod_pow2 by lia.
  destruct (Z.ltb_spec k 8); cbn [andb]; [| reflexivity].
  rewrite testbit_u8_set by lia. decide_cmp. cbn [andb]. f_equal. lia.
Qed.

Lemma u8_set_nonneg (n i v : Z) : 0 <= n -> 0 <= i -> 0 <= u8_set n i v.
Proof.
  intros Hn Hi. unfold u8_set. apply Z.lor_nonneg. split.
  - apply Z.land_nonneg. now left.
  - apply Z.shiftl_nonneg. apply Z.mod_pos_bound. lia.
Qed.

(** A store to one of the four bytes of a 32-bit object stays inside it. *)
Lemma u8_set_range (n i v : Z) :
  0 <= n < 2 ^ 32 -> 0 <= i <= 3 -> 0 <= u8_set n i v < 2 ^ 32.
Proof.
  intros Hn Hi. pose proof (u8_set_nonneg n i v ltac:(lia) ltac:(lia)) as H0.
  split; [exact H0 |].
  apply (proj2 (Z.bounded_iff_bits_nonneg 32 _ ltac:(lia) H0)).
  intros k Hk. rewrite testbit_u8_set by lia. decide_cmp. cbn [andb].
  apply testbit_above_32; lia.
Qed.

Lemma pton_loop_range (k : nat) :
  forall idx sp n,
  0 <= idx -> idx + Z.of_nat k <= 4 -> 0 <= n < 2 ^ 32 ->
  0 <= snd (pton_loop k idx sp n) < 2 ^ 32.
Proof.
  induction k as [| k IH]; intros idx sp n Hidx Hk Hn; [exact Hn |].
  destruct (pton_step_inv k idx sp n) as [-> | (s & r & v & _ & _ & _ & ->)];
    [exact Hn |].
  apply IH; [lia | lia |]. apply u8_set_range; lia.
Qed.

(** A 32-bit value is its four bytes, least significant first. *)
Lemma u32_of_bytes (r : Z) :
  0 <= r < 2 ^ 32 ->
  r = u8_get r 0 + 256 * u8_get r 1 + 65536 * u8_get r 2 + 16777216 * u8_get r 3.
Proof.
  intros Hr. unfold u8_get. rewrite !land_0xff.
  rewrite !Z.shiftr_div_pow2 by lia.
  change (2 ^ (8 * 0)) with 1. change (2 ^ (8 * 1)) with 256.
  change (2 ^ (8 * 2)) with 65536. change (2 ^ (8 * 3)) with 16777216.
  change (2 ^ 32) with 4294967296 in Hr.
  Z.div_mod_to_equations. lia.
Qed.

Lemma write_octets_bytes (n v0 v1 v2 v3 : Z) :
  let r := write_octets n 0 [v0; v1; v2; v3] in
  u8_get r 0 = v0 mod 256 /\ u8_get r 1 = v1 mod 256
  /\ u8_get r 2 = v2 mod 256 /\ u8_get r 3 = v3 mod 256.
Proof.
  cbn [write_octets]. change (0 + 1) with 1. change (1 + 1) with 2.
  change (2 + 1) with 3.
  repeat split.
  - rewrite !(u8_get_set_other _ _ 0) by lia. now apply u8_get_set_same.
  - rewrite !(u8_get_set_other _ _ 1) by lia. now apply u8_get_set_same.
  - rewrite !(u8_get_set_other _ _ 2) by lia. now apply u8_get_set_same.
  - now apply u8_get_set_same.
Qed.

Lemma leading_octets (vs : list Z) :
  forall p rest, leading vs p rest -> Forall (fun v => 0 <= v <= 255) vs.
Proof.
  induction vs as [| v vs IH]; intros p rest Hl; [constructor |].
  destruct Hl as (s & r & _ & [_ Hv] & Hl). constructor; [exact Hv | eauto].
Qed.

Lemma dotted_quad_octets (p : list ascii) (v0 v1 v2 v3 : Z) :
  dotted_quad p v0 v1 v2 v3 ->
  0 <= v0 <= 255 /\ 0 <= v1 <= 255 /\ 0 <= v2 <= 255 /\ 0 <= v3 <= 255.
Proof.
  intros (rest & s3 & tail & Hl & _ & [_ H3] & _).
  apply leading_octets in Hl.
  inversion Hl as [| ? ? H0 Hl1]; subst.
  inversion Hl1 as [| ? ? H1 Hl2]; subst.
  inversion Hl2 as [| ? ? H2 _]; subst. auto.
Qed.

(** X1: a successful parse stores the address in network byte order: the
    value of the first segment in the byte at the lowest address, and so on;
    read as a host integer the object is then
    [v0 + 256 v1 + 65536 v2 + 16777216 v3]. *)
Theorem ip_addr_pton_network_order (p : list ascii) (n v0 v1 v2 v3 : Z) :
  dotted_quad p v0 v1 v2 v3 -> 0 <= n < 2 ^ 32 ->
  let r := snd (ip_addr_pton p n) in
  fst (ip_addr_pton p n) = 0
  /\ u8_get r 0 = v0 /\ u8_get r 1 = v1 /\ u8_get r 2 = v2 /\ u8_get r 3 = v3
  /\ r = v0 + 256 * v1 + 65536 * v2 + 16777216 * v3.
Proof.
  intros Hq Hn r. subst r.
  pose proof (pton_loop_range 4 0 p n ltac:(lia) ltac:(lia) Hn) as Hr.
  fold (ip_addr_pton p n) in Hr.
  destruct (dotted_quad_octets p v0 v1 v2 v3 Hq) as (H0 & H1 & H2 & H3).
  rewrite (pton_of_quad p n v0 v1 v2 v3 Hq) in *. cbn [fst snd] in *.
  destruct (write_octets_bytes n v0 v1 v2 v3) as (B0 & B1 & B2 & B3).
  rewrite Z.mod_small in B0, B1, B2, B3 by lia.
  split; [reflexivity |]. repeat (split; [assumption |]).
  rewrite (u32_of_bytes _ Hr) at 1. rewrite B0, B1, B2, B3. reflexivity.
Qed.

Lemma quad_192_168_1_10 : dotted_quad (chars "192.168.1.10") 192 168 1 10.
Proof.
  exists (chars "10"), (chars "10"), [].
  split; [| split; [reflexivity | split; [| reflexivity]]].
  - exists (chars "192"), (chars "168.1.10"). split; [reflexivity | split].
    { apply octet_digits; [reflexivity | discriminate | reflexivity | lia]. }
    exists (chars "168"), (chars "1.10"). split; [reflexivity | split].
    { apply octet_digits; [reflexivity | discriminate | reflexivity | lia]. }
    exists (chars "1"), (chars "10"). split; [reflexivity | split].
    { apply octet_digits; [reflexivity | discriminate | reflexivity | lia]. }
    reflexivity.
  - apply octet_digits; [reflexivity | discriminate | reflexivity | lia].
Qed.

(** X1 on "192.168.1.10", stored over an object that held all ones. *)
Lemma ip_addr_pton_network_order_witness :
  u8_get (snd (ip_addr_pton (chars "192.168.1.10") 0xffffffff)) 0 = 192
  /\ snd (ip_addr_pton (chars "192.168.1.10") 0xffffffff) = 0x0a01a8c0.
Proof.
  destruct (ip_addr_pton_network_order (chars "192.168.1.10") 0xffffffff
              192 168 1 10 quad_192_168_1_10 ltac:(lia))
    as (_ & H0 & _ & _ & _ & Hr).
  split; [exact H0 | exact Hr].
Defined.

(** X2: whatever the text, and whether it parses or not, [ip_addr_pton]
    stores only into the four bytes of the object it is given. *)
Theorem ip_addr_pton_confined (p : list ascii) (n : Z) :
  0 <= n < 2 ^ 32 -> 0 <= snd (ip_addr_pton p n) < 2 ^ 32.
Proof.
  intros Hn. apply (pton_loop_range 4 0 p n); lia.
Qed.

(** X2 on a text that fails after three segments. *)
Lemma ip_addr_pton_confined_witness :
  0 <= snd (ip_addr_pton (chars "1.2.3.x") 0xffffffff) < 2 ^ 32.
Proof.
  apply (ip_addr_pton_confined (chars "1.2.3.x") 0xffffffff). lia.
Defined.

(** X3: what the output object held before has no influence on whether a
    text parses, nor, when it does, on what the object holds afterwards. *)
Theorem ip_addr_pton_ignores_prior_content (p : list ascii) (n n' : Z) :
  0 <= n < 2 ^ 32 -> 0 <= n' < 2 ^ 32 ->
  fst (ip_addr_pton p n) = fst (ip_addr_pton p n')
  /\ (fst (ip_addr_pton p n) = 0 -> snd (ip_addr_pton p n) = snd (ip_addr_pton p n')).
Proof.
  intros Hn Hn'. split.
  - apply pton_loop_fst_indep.
  - intros Hok. now rewrite (ip_addr_pton_overwrites p n n' Hn Hn' Hok).
Qed.

(** X3 on "192.168.1.10", over a zeroed object and over all ones. *)
Lemma ip_addr_pton_ignores_prior_content_witness :
  snd (ip_addr_pton (chars "192.168.1.10") 0)
  = snd (ip_addr_pton (chars "192.168.1.10") 0xffffffff).
Proof.
  apply (ip_addr_pton_ignores_prior_content (chars "192.168.1.10") 0 0xffffffff);
    [lia | lia | reflexivity].
Defined.

(** ** [ip_addr_ntop]: the shape of the text *)

Lemma fmt_d_length (b : Z) : 0 <= b <= 255 -> (1 <= length (fmt_d b) <= 3)%nat.
Proof.
  intros Hb. destruct (fmt_d_octet b Hb) as (_ & Hne & Hl & _).
  destruct (fmt_d b); [congruence | cbn in *; lia].
Qed.

Lemma digits_no_dot (ds : list ascii) :
  forallb isdigit ds = true -> List.filter (fun c => Ascii.eqb c ".") ds = [].
Proof.
  induction ds as [| d ds IH]; [reflexivity |]. cbn [forallb]. intros Hd.
  apply andb_true_iff in Hd as [Hd Hds]. cbn [List.filter].
  replace (Ascii.eqb d ".") with false; [auto |].
  symmetry. apply Ascii.eqb_neq. intros ->. discriminate Hd.
Qed.

Lemma digits_addr_char (ds : list ascii) :
  forallb isdigit ds = true -> forallb addr_char ds = true.
Proof.
  induction ds as [| d ds IH]; [reflexivity |]. cbn [forallb]. intros Hd.
  apply andb_true_iff in Hd as [Hd Hds]. unfold addr_char at 1.
  rewrite Hd. cbn. auto.
Qed.

Lemma ip_addr_ntop_cstring (n : Z) (p : nat) (mem : list ascii) (size : Z) :
  16 <= size -> cstring (snd (ip_addr_ntop n p mem size)) = ntop_text n.
Proof.
  intros Hs. pose proof (ntop_text_length n) as Hl.
  unfold ip_addr_ntop. cbn [snd].
  rewrite snprintf_stores by lia. rewrite take_ge by lia.
  apply cstring_app_nul, ntop_text_no_nul.
Qed.

(** X4: the text of an address is 7 to 15 characters, digits and exactly
    three dots, so a buffer of [IP_ADDR_STR_LEN] bytes or more always
    receives it whole; the addresses in the log lines are never cut. *)
Theorem ip_addr_ntop_fits (n : Z) (p : nat) (mem : list ascii) (size : Z) :
  IP_ADDR_STR_LEN <= size ->
  cstring (snd (ip_addr_ntop n p mem size)) = ntop_text n
  /\ ntop_str n = ntop_text n
  /\ (7 <= length (ntop_text n) <= 15)%nat
  /\ forallb addr_char (ntop_text n) = true
  /\ length (List.filter (fun c => Ascii.eqb c ".") (ntop_text n)) = 3%nat.
Proof.
  intros Hs. unfold IP_ADDR_STR_LEN in Hs.
  pose proof (ntop_text_length n) as Hl.
  split; [now apply ip_addr_ntop_cstring |]. split.
  { unfold ntop_str. apply ip_addr_ntop_cstring. unfold IP_ADDR_STR_LEN. lia. }
  destruct (fmt_d_octet _ (u8_get_range n 0)) as (D0 & _ & _ & _).
  destruct (fmt_d_octet _ (u8_get_range n 1)) as (D1 & _ & _ & _).
  destruct (fmt_d_octet _ (u8_get_range n 2)) as (D2 & _ & _ & _).
  destruct (fmt_d_octet _ (u8_get_range n 3)) as (D3 & _ & _ & _).
  split; [| split].
  - split; [| exact Hl]. unfold ntop_text.
    pose proof (fmt_d_length _ (u8_get_range n 0)).
    pose proof (fmt_d_length _ (u8_get_range n 1)).
    pose proof (fmt_d_length _ (u8_get_range n 2)).
    pose proof (fmt_d_length _ (u8_get_range n 3)).
    repeat (rewrite length_app; cbn [length]). lia.
  - unfold ntop_text. repeat (rewrite forallb_app; cbn [forallb]).
    rewrite !digits_addr_char by assumption. reflexivity.
  - unfold ntop_text. repeat (rewrite List.filter_app; cbn [List.filter]).
    rewrite !digits_no_dot by assumption. reflexivity.
Qed.

(** X4 at 10.0.0.255 and a buffer of exactly 16 bytes. *)
Lemma ip_addr_ntop_fits_witness :
  cstring (snd (ip_addr_ntop 0xff00000a 0%nat (repeat "x"%char 16) 16))
  = chars "10.0.0.255".
Proof.
  destruct (ip_addr_ntop_fits 0xff00000a 0%nat (repeat "x"%char 16) 16)
    as (H & _); [unfold IP_ADDR_STR_LEN; lia |].
  rewrite H. reflexivity.
Defined.

Lemma ntop_text_injective (a b : Z) :
  0 <= a < 2 ^ 32 -> 0 <= b < 2 ^ 32 -> ntop_text a = ntop_text b -> a = b.
Proof.
  intros Ha Hb E.
  pose proof (pton_of_quad _ 0 _ _ _ _ (ntop_text_quad a [] eq_refl)) as Pa.
  pose proof (pton_of_quad _ 0 _ _ _ _ (ntop_text_quad b [] eq_refl)) as Pb.
  rewrite write_octets_get in Pa, Pb by lia.
  rewrite E in Pa. rewrite Pa in Pb. now injection Pb.
Qed.

(** X5: two different 32-bit addresses never come out as the same string:
    formatted into buffers of [IP_ADDR_STR_LEN] bytes or more, equal strings
    mean equal addresses. *)
Theorem ip_addr_ntop_injective (a b : Z) (p p' : nat) (mem mem' : list ascii)
    (size size' : Z) :
  0 <= a < 2 ^ 32 -> 0 <= b < 2 ^ 32 ->
  IP_ADDR_STR_LEN <= size -> IP_ADDR_STR_LEN <= size' ->
  cstring (snd (ip_addr_ntop a p mem size))
  = cstring (snd (ip_addr_ntop b p' mem' size')) ->
  a = b.
Proof.
  unfold IP_ADDR_STR_LEN. intros Ha Hb Hs Hs' E.
  rewrite !ip_addr_ntop_cstring in E by lia.
  now apply ntop_text_injective.
Qed.

(** X5 the other way round: 10.0.0.1 and 10.0.1.0 come out differently. *)
Lemma ip_addr_ntop_injective_witness :
  cstring (snd (ip_addr_ntop 0x0100000a 0%nat (repeat NUL 16) 16))
  <> cstring (snd (ip_addr_ntop 0x0001000a 0%nat (repeat NUL 16) 16)).
Proof.
  intros E.
  pose proof (ip_addr_ntop_injective 0x0100000a 0x0001000a 0%nat 0%nat
                (repeat NUL 16) (repeat NUL 16) 16 16
                ltac:(lia) ltac:(lia) ltac:(unfold IP_ADDR_STR_LEN; lia)
                ltac:(unfold IP_ADDR_STR_LEN; lia) E) as H.
  discriminate H.
Defined.

(** ** The broadcast address *)

Lemma testbit_broadcast_of (uni mask k : Z) :
  0 <= k ->
  Z.testbit (broadcast_of uni mask) k
  = (Z.testbit uni k && Z.testbit mask k) || ((k <? 32) && negb (Z.testbit mask k)).
Proof.
  intros Hk. unfold broadcast_of.
  now rewrite Z.lor_spec, Z.land_spec, Z.testbit_mod_pow2, Z.lnot_spec by lia.
Qed.

(** X6: for 32-bit addresses the broadcast address [ip_iface_alloc] derives
    is a 32-bit value that agrees with the unicast address on the network
    part and has every host bit set; with the mask 255.255.255.255 it is the
    unicast address itself, with the mask 0.0.0.0 it is 255.255.255.255. *)
Theorem broadcast_of_network (uni mask : Z) :
  0 <= uni < 2 ^ 32 -> 0 <= mask < 2 ^ 32 ->
  0 <= broadcast_of uni mask < 2 ^ 32
  /\ Z.land (broadcast_of uni mask) mask = Z.land uni mask
  /\ Z.lor (broadcast_of uni mask) mask = 0xffffffff
  /\ (mask = 0xffffffff -> broadcast_of uni mask = uni)
  /\ (mask = 0 -> broadcast_of uni mask = IP_ADDR_BROADCAST).
Proof.
  intros Hu Hm.
  assert (H0 : 0 <= broadcast_of uni mask).
  { unfold broadcast_of. apply Z.lor_nonneg. split.
    - apply Z.land_nonneg. left. lia.
    - apply Z.mod_pos_bound. lia. }
  split; [split; [exact H0 |] | split; [| split; [| split]]].
  - apply (proj2 (Z.bounded_iff_bits_nonneg 32 _ ltac:(lia) H0)).
    intros k Hk. rewrite testbit_broadcast_of by lia.
    rewrite (testbit_above_32 uni k) by lia. decide_cmp. reflexivity.
  - apply Z.bits_inj'. intros k Hk.
    rewrite !Z.land_spec, testbit_broadcast_of by lia.
    destruct (Z.testbit uni k), (Z.testbit mask k), (k <? 32); reflexivity.
  - apply Z.bits_inj'. intros k Hk.
    rewrite Z.lor_spec, testbit_broadcast_of by lia.
    change 0xffffffff with (Z.ones 32). rewrite Z.testbit_ones_nonneg by lia.
    destruct (Z.ltb_spec k 32).
    + destruct (Z.testbit uni k), (Z.testbit mask k); reflexivity.
    + rewrite (testbit_above_32 uni k), (testbit_above_32 mask k) by lia. reflexivity.
  - intros ->. apply Z.bits_inj'. intros k Hk. rewrite testbit_broadcast_of by lia.
    change 0xffffffff with (Z.ones 32). rewrite Z.testbit_ones_nonneg by lia.
    destruct (Z.ltb_spec k 32).
    + now rewrite andb_true_r, orb_false_r.
    + rewrite (testbit_above_32 uni k) by lia. reflexivity.
  - intros ->. unfold IP_ADDR_BROADCAST. apply Z.bits_inj'. intros k Hk.
    rewrite testbit_broadcast_of by lia.
    change 0xffffffff with (Z.ones 32). rewrite Z.testbit_ones_nonneg by lia.
    rewrite Z.bits_0. now rewrite andb_false_r, andb_true_r.
Qed.

(** X6 at 172.16.5.4 with mask 255.255.0.0: the broadcast address is
    172.16.255.255. *)
Lemma broadcast_of_network_witness :
  Z.land (broadcast_of 0x040510ac 0x0000ffff) 0x0000ffff = 0x000010ac
  /\ Z.lor (broadcast_of 0x040510ac 0x0000ffff) 0x0000ffff = 0xffffffff.
Proof.
  destruct (broadcast_of_network 0x040510ac 0x0000ffff ltac:(lia) ltac:(lia))
    as (_ & Hn & Hh & _).
  split; [rewrite Hn; reflexivity | exact Hh].
Defined.

(** ** [ip_iface_alloc]: the successful path *)

(** X7: when the allocator gives an object and both texts parse,
    [ip_iface_alloc] returns that object without a diagnostic; the object
    was not live before, it is afterwards, and every other object of the
    heap is as it was. *)
Theorem ip_iface_alloc_success `{Collaborators} (h : heap) (u m : list ascii)
    (p : ptr) :
  memory_alloc h = Some p ->
  fst (ip_addr_pton u 0) = 0 -> fst (ip_addr_pton m 0) = 0 ->
  (ip_iface_alloc h u m).1.1 = Some p
  /\ (ip_iface_alloc h u m).2 = []
  /\ h !! p = None
  /\ is_Some ((ip_iface_alloc h u m).1.2 !! p)
  /\ forall q, q <> p -> (ip_iface_alloc h u m).1.2 !! q = h !! q.
Proof.
  intros Ea Hu Hm. pose proof (memory_alloc_fresh h p Ea) as Hp.
  unfold ip_iface_alloc. rewrite Ea. rewrite !store_insert.
  destruct (ip_addr_pton u 0) as [r1 uni]. cbn [fst] in Hu. subst r1. cbn [Z.eqb].
  rewrite !store_insert.
  destruct (ip_addr_pton m 0) as [r2 mask]. cbn [fst] in Hm. subst r2. cbn [Z.eqb].
  rewrite !store_insert. cbn [fst snd].
  split; [reflexivity | split; [reflexivity | split; [exact Hp | split]]].
  - rewrite lookup_insert_eq. eauto.
  - intros q Hq. now rewrite lookup_insert_ne.
Qed.

(** X7 with the reference allocator, on a heap that holds the sample
    interface: the new object is number 1 and object 0 is untouched. *)
Lemma ip_iface_alloc_success_witness :
  (@ip_iface_alloc ref_collab sample_heap (chars "10.0.0.1") (chars "255.0.0.0")).1.1
    = Some 1%nat
  /\ (@ip_iface_alloc ref_collab sample_heap (chars "10.0.0.1") (chars "255.0.0.0")).1.2
       !! 0%nat = Some sample_iface.
Proof.
  destruct (@ip_iface_alloc_success ref_collab sample_heap (chars "10.0.0.1")
              (chars "255.0.0.0") 1%nat)
    as (Hr & _ & _ & _ & Hf);
    [vm_compute; reflexivity | reflexivity | reflexivity |].
  split; [exact Hr |]. rewrite Hf by lia. vm_compute. reflexivity.
Defined.

(** ** [ip_iface_register]: what the two assignments leave *)

(** X8: after a successful registration the interface's [next] holds what
    the device's list head was when the device layer returned; when the
    device layer has put the interface at the head of its list, as the
    reference one does, the interface's [next] points to the interface
    itself.  The addresses of the interface and all other objects are as the
    device layer left them. *)
Theorem ip_iface_register_next `{Collaborators} (w : world) (dev : net_device)
    (iface : ptr) (h1 : heap) (dev1 : net_device) :
  net_device_add_iface (objs w) dev iface = Some (h1, dev1) ->
  let w' := (ip_iface_register w dev iface).1.1.2 in
  (ip_iface_register w dev iface).1.1.1 = 0
  /\ dev_ifaces (ip_iface_register w dev iface).1.2 = Some iface
  /\ next (iface_at (objs w') iface) = dev_ifaces dev1
  /\ (dev_ifaces dev1 = Some iface -> next (iface_at (objs w') iface) = Some iface)
  /\ unicast (iface_at (objs w') iface) = unicast (iface_at h1 iface)
  /\ netmask (iface_at (objs w') iface) = netmask (iface_at h1 iface)
  /\ broadcast (iface_at (objs w') iface) = broadcast (iface_at h1 iface)
  /\ forall q, q <> iface -> objs w' !! q = h1 !! q.
Proof.
  intros Ea w'. subst w'. unfold ip_iface_register. rewrite Ea. cbn [fst snd objs].
  assert (Hi : iface_at (store h1 iface (fun i => set_next i (dev_ifaces dev1))) iface
               = set_next (iface_at h1 iface) (dev_ifaces dev1)).
  { unfold store. unfold iface_at at 1. now rewrite lookup_insert_eq. }
  rewrite Hi. cbn [dev_ifaces next set_next unicast netmask broadcast].
  repeat (split; [reflexivity |]). split; [intros ->; reflexivity |].
  repeat (split; [reflexivity |]).
  intros q Hq. unfold store. now rewrite lookup_insert_ne.
Qed.

(** X8 in the setup run: object 0 is registered with [eth1] and its [next]
    is object 0. *)
Lemma ip_iface_register_next_witness :
  next (iface_at
          (objs (@ip_iface_register ref_collab
                   {| objs := setup_alloc.1.2; ifaces := None |} bare_dev 0%nat).1.1.2)
          0%nat) = Some 0%nat.
Proof.
  destruct (@net_device_add_iface ref_collab setup_alloc.1.2 bare_dev 0%nat)
    as [[h1 dev1] |] eqn:Ea; [| vm_compute in Ea; discriminate Ea].
  destruct (@ip_iface_register_next ref_collab
              {| objs := setup_alloc.1.2; ifaces := None |} bare_dev 0%nat h1 dev1 Ea)
    as (_ & _ & _ & Hself & _).
  apply Hself. vm_compute in Ea. injection Ea as _ <-. reflexivity.
Defined.

(** ** [ip_iface_select] on a list *)

Lemma select_loop_sound (fuel : nat) (h : heap) :
  forall entry addr e,
  select_loop fuel h entry addr = Some (Some e) ->
  exists i, h !! e = Some i /\ owns i addr = true.
Proof.
  induction fuel as [| fuel IH]; intros entry addr e E.
  - destruct entry; discriminate E.
  - destruct entry as [e0 |]; [| discriminate E]. cbn [select_loop] in E.
    destruct (h !! e0) as [i |] eqn:Hi; [| discriminate E].
    destruct ((unicast i =? addr) || (broadcast i =? addr)) eqn:Ho.
    + injection E as <-. exists i. split; assumption.
    + exact (IH _ _ _ E).
Qed.

(** With fuel for every entry, the loop returns the first entry of the list
    that owns the address, and [NULL] when none does. *)
Lemma select_loop_chain (h : heap) (addr : Z) (entry : option ptr) (ps : list ptr) :
  chain h entry ps ->
  forall fuel, (length ps <= fuel)%nat ->
  select_loop fuel h entry addr
  = Some (List.find (fun e => owns (iface_at h e) addr) ps).
Proof.
  induction 1 as [| e i ps Hi Hch IH]; intros fuel Hf.
  - destruct fuel; reflexivity.
  - destruct fuel as [| fuel]; [cbn in Hf; lia |].
    assert (Hat : iface_at h e = i) by (unfold iface_at; now rewrite Hi).
    cbn [select_loop List.find]. rewrite Hi, Hat. unfold owns at 1.
    destruct ((unicast i =? addr) || (broadcast i =? addr)); [reflexivity |].
    apply IH. cbn in Hf. lia.
Qed.

(** X9: a pointer [ip_iface_select] returns is a live interface whose
    unicast or broadcast address is the one asked for, and comes without a
    diagnostic; [NULL] always comes with the warning. *)
Theorem ip_iface_select_sound (fuel : nat) (w : world) (addr : Z)
    (r : option ptr) (log : list event) :
  ip_iface_select fuel w addr = Some (r, log) ->
  match r with
  | Some e =>
      log = []
      /\ exists i, objs w !! e = Some i /\ (unicast i = addr \/ broadcast i = addr)
  | None => log = [warnf "not found device which has specified addr"]
  end.
Proof.
  unfold ip_iface_select.
  destruct (select_loop fuel (objs w) (ifaces w) addr) as [[e |] |] eqn:E;
    intros [= <- <-]; [| reflexivity].
  split; [reflexivity |].
  destruct (select_loop_sound _ _ _ _ _ E) as (i & Hi & Ho).
  exists i. split; [exact Hi |]. unfold owns in Ho.
  apply orb_true_iff in Ho as [Ho | Ho]; apply Z.eqb_eq in Ho; auto.
Qed.

(** X9 on the list of the two twin interfaces, asked for the subnet
    broadcast address 192.0.2.255. *)
Lemma ip_iface_select_sound_witness :
  exists i, objs twin_world !! 0%nat = Some i
            /\ (unicast i = 0xff0200c0 \/ broadcast i = 0xff0200c0).
Proof.
  apply (ip_iface_select_sound 2 twin_world 0xff0200c0 (Some 0%nat) []).
  vm_compute. reflexivity.
Defined.

(** X10: on a well-formed list, and given fuel for each of its entries,
    [ip_iface_select] returns the first entry whose unicast or broadcast
    address is the one asked for, and [NULL] with the warning exactly when
    no entry has it. *)
Theorem ip_iface_select_first_match (fuel : nat) (w : world) (ps : list ptr)
    (addr : Z) :
  chain (objs w) (ifaces w) ps -> (length ps <= fuel)%nat ->
  ip_iface_select fuel w addr
  = Some (match List.find (fun e => owns (iface_at (objs w) e) addr) ps with
          | Some e => (Some e, [])
          | None => (None, [warnf "not found device which has specified addr"])
          end).
Proof.
  intros Hch Hf. unfold ip_iface_select.
  rewrite (select_loop_chain _ addr _ _ Hch fuel Hf).
  destruct (List.find _ ps); reflexivity.
Qed.

Lemma twin_chain : chain (objs twin_world) (ifaces twin_world) [0%nat; 1%nat].
Proof.
  apply (chain_cons _ 0%nat (set_next sample_iface (Some 1%nat))); [reflexivity |].
  apply (chain_cons _ 1%nat sample_iface); [reflexivity |].
  apply chain_nil.
Qed.

(** X10 on the twin interfaces: both own 192.0.2.10 and the first is
    returned; nobody owns 192.0.2.99. *)
Lemma ip_iface_select_first_match_witness :
  ip_iface_select 2 twin_world 0x0a0200c0 = Some (Some 0%nat, [])
  /\ ip_iface_select 2 twin_world 0x630200c0
     = Some (None, [warnf "not found device which has specified addr"]).
Proof.
  split.
  - rewrite (ip_iface_select_first_match 2 twin_world [0%nat; 1%nat] 0x0a0200c0
               twin_chain ltac:(cbn; lia)).
    reflexivity.
  - rewrite (ip_iface_select_first_match 2 twin_world [0%nat; 1%nat] 0x630200c0
               twin_chain ltac:(cbn; lia)).
    reflexivity.
Defined.

(** ** [ip_input]: what is handed on *)

(** Only a packet that passed every check and is addressed to the device's
    interface is handed on. *)
Lemma ip_input_accepted_inv `{Collaborators} (h : heap) (data : list byte)
    (len : Z) (dev : net_device) :
  accepted (ip_input h data len dev) = true ->
  validated data len
  /\ exists p,
       net_device_get_iface h dev NET_IFACE_FAMILY_IP = Some p
       /\ (dst (hdr_of data) = unicast (iface_at h p)
           \/ dst (hdr_of data) = broadcast (iface_at h p)
           \/ dst (hdr_of data) = IP_ADDR_BROADCAST)
       /\ ip_input h data len dev = accept_log data dev (iface_at h p).
Proof.
  unfold ip_input.
  next_test; [discriminate |]. next_test; [discriminate |].
  next_test; [discriminate |]. next_test; [discriminate |].
  next_test; [discriminate |].
  destruct (negb (Z.land (ntoh16 (offset (hdr_of data))) 0x2000 =? 0)
            || negb (Z.land (ntoh16 (offset (hdr_of data))) 0x1fff =? 0)) eqn:Hf;
    [discriminate |].
  bool_hyps.
  destruct (net_device_get_iface h dev NET_IFACE_FAMILY_IP) as [p |];
    [| discriminate].
  cbv zeta.
  destruct (negb (dst (hdr_of data) =? unicast (iface_at h p))
            && negb (dst (hdr_of data) =? IP_ADDR_BROADCAST)
            && negb (dst (hdr_of data) =? broadcast (iface_at h p))) eqn:Hd;
    [discriminate |].
  intros _. split.
  - unfold validated. repeat split; assumption.
  - exists p. split; [reflexivity |]. split; [| reflexivity].
    destruct (dst (hdr_of data) =? unicast (iface_at h p)) eqn:Eu;
      destruct (dst (hdr_of data) =? IP_ADDR_BROADCAST) eqn:Eb;
      destruct (dst (hdr_of data) =? broadcast (iface_at h p)) eqn:Ec;
      bool_hyps; try discriminate Hd; auto.
Qed.

(** X12: [ip_input] hands a packet on only when it is at least 20 bytes
    long, has version 4, declares no more than the bytes received, sums to
    zero, is no fragment, arrives on a device with an interface and is
    addressed to that interface's unicast or broadcast address or to
    255.255.255.255. *)
Theorem ip_input_accepts_only_valid `{Collaborators} (h : heap) (data : list byte)
    (len : Z) (dev : net_device) :
  accepted (ip_input h data len dev) = true ->
  validated data len
  /\ exists p,
       net_device_get_iface h dev NET_IFACE_FAMILY_IP = Some p
       /\ (dst (hdr_of data) = unicast (iface_at h p)
           \/ dst (hdr_of data) = broadcast (iface_at h p)
           \/ dst (hdr_of data) = IP_ADDR_BROADCAST)
       /\ ip_input h data len dev = accept_log data dev (iface_at h p).
Proof. apply ip_input_accepted_inv. Qed.

(** X12 on the sample packet to 192.0.2.10. *)
Lemma ip_input_accepts_only_valid_witness : validated pkt_unicast 20.
Proof.
  apply (@ip_input_accepts_only_valid ref_collab sample_heap pkt_unicast 20 sample_dev).
  vm_compute. reflexivity.
Defined.

(** X13: every call of [ip_input] ends in one of three ways: a single
    error diagnostic, nothing at all, or the debug line followed by the
    header dump; a diagnostic and a hand-off never come together. *)
Theorem ip_input_three_outcomes `{Collaborators} (h : heap) (data : list byte)
    (len : Z) (dev : net_device) :
  (rejected (ip_input h data len dev) /\ accepted (ip_input h data len dev) = false)
  \/ ip_input h data len dev = []
  \/ (accepted (ip_input h data len dev) = true
      /\ exists iface, ip_input h data len dev = accept_log data dev iface).
Proof.
  destruct (ip_input_outcomes h data len dev) as [Hr | [He | [iface Ha]]].
  - left. split; [exact Hr |]. destruct Hr as [msg ->]. reflexivity.
  - right. left. exact He.
  - right. right. rewrite Ha. split; [reflexivity | eauto].
Qed.

(** ** [ip_input]: the version *)

Lemma version_nibble (b : byte) : Z.shiftr (Z.land (b2z b) 0xf0) 4 = b2z b / 16.
Proof. destruct b; reflexivity. Qed.

(** X14: a buffer of at least 20 bytes whose first byte does not carry 4 in
    its high nibble is rejected with "version must be 4", whatever else it
    holds. *)
Theorem ip_input_rejects_other_versions `{Collaborators} (h : heap)
    (data : list byte) (len : Z) (dev : net_device) :
  IP_HDR_SIZE_MIN <= len -> b2z (byte_at data 0) / 16 <> 4 ->
  ip_input h data len dev = [errorf "version must be 4"].
Proof.
  intros Hlen Hv. apply ip_input_version; [exact Hlen |].
  change (vhl (hdr_of data)) with (b2z (byte_at data 0)).
  now rewrite version_nibble.
Qed.

(** X14 on a header with version 6 and a correct checksum. *)
Lemma ip_input_rejects_other_versions_witness :
  @ip_input ref_collab sample_heap pkt_version6 20 sample_dev
  = [errorf "version must be 4"].
Proof.
  apply (@ip_input_rejects_other_versions ref_collab sample_heap pkt_version6 20
           sample_dev).
  - unfold IP_HDR_SIZE_MIN. lia.
  - vm_compute. congruence.
Defined.

(** ** [ip_input]: the bytes it looks at *)

Lemma byte_at_take (data : list byte) (n i : nat) :
  (i < n)%nat -> byte_at (take n data) i = byte_at data i.
Proof.
  intros Hi. unfold byte_at. rewrite nth_firstn.
  now replace (i <? n)%nat with true by (symmetry; apply Nat.ltb_lt; lia).
Qed.

Lemma hdr_of_take (data : list byte) (n : nat) :
  (20 <= n)%nat -> hdr_of (take n data) = hdr_of data.
Proof.
  intros Hn. unfold hdr_of. cbv zeta. rewrite !byte_at_take by lia. reflexivity.
Qed.

Lemma cksum16_take (data : list byte) (len : Z) :
  cksum16 (take (Z.to_nat len) data) len 0 = cksum16 data len 0.
Proof.
  unfold cksum16. now rewrite take_take, Nat.min_id.
Qed.

(** X15: [ip_input] reads nothing behind the [len] bytes it is given: two
    buffers that agree on their first [len] bytes get the same log, up to
    the buffer the header dump is asked to print. *)
Theorem ip_input_reads_len_bytes `{Collaborators} (h : heap) (d1 d2 : list byte)
    (len : Z) (dev : net_device) :
  take (Z.to_nat len) d1 = take (Z.to_nat len) d2 ->
  ip_input h d1 len dev = map (with_buffer d1) (ip_input h d2 len dev).
Proof.
  intros E.
  destruct (Z.lt_ge_cases len IP_HDR_SIZE_MIN) as [Hs | Hs].
  { now rewrite !ip_input_short by exact Hs. }
  assert (Hh : hdr_of d1 = hdr_of d2).
  { rewrite <- (hdr_of_take d1 (Z.to_nat len)), <- (hdr_of_take d2 (Z.to_nat len))
      by (unfold IP_HDR_SIZE_MIN in Hs; lia).
    now rewrite E. }
  assert (Hc : cksum16 d1 len 0 = cksum16 d2 len 0).
  { rewrite <- (cksum16_take d1), <- (cksum16_take d2). now rewrite E. }
  unfold ip_input. rewrite Hh, Hc.
  repeat (next_test; [reflexivity |]).
  destruct (net_device_get_iface h dev NET_IFACE_FAMILY_IP); [| reflexivity].
  cbv zeta. next_test; reflexivity.
Qed.

(** X15 on the sample packet followed by different bytes, with [len] 20. *)
Lemma ip_input_reads_len_bytes_witness :
  @ip_input ref_collab sample_heap (pkt_unicast ++ [x00; x01]) 20 sample_dev
  = map (with_buffer (pkt_unicast ++ [x00; x01]))
        (@ip_input ref_collab sample_heap (pkt_unicast ++ [xff]) 20 sample_dev).
Proof.
  apply (@ip_input_reads_len_bytes ref_collab sample_heap
           (pkt_unicast ++ [x00; x01]) (pkt_unicast ++ [xff]) 20 sample_dev).
  reflexivity.
Defined.

(** ** The flags-and-offset field, byte by byte *)

Lemma frag_bytes (x y : Z) : 0 <= x <= 255 -> 0 <= y <= 255 -> frag_bytes_ok x y = true.
Proof.
  intros Hx Hy.
  assert (Hall : forallb (fun x => forallb (frag_bytes_ok x) (map Z.of_nat (seq 0 256)))
                   (map Z.of_nat (seq 0 256)) = true) by (vm_compute; reflexivity).
  assert (Hin : forall z, 0 <= z <= 255 -> In z (map Z.of_nat (seq 0 256))).
  { intros z Hz. apply in_map_iff. exists (Z.to_nat z). split; [lia |].
    apply in_seq. lia. }
  rewrite forallb_forall in Hall. specialize (Hall x (Hin x Hx)).
  rewrite forallb_forall in Hall. exact (Hall y (Hin y Hy)).
Qed.

Lemma frag_bytes_spec (b6 b7 : byte) :
  let o := ntoh16 (le16 b6 b7) in
  o = 256 * b2z b6 + b2z b7
  /\ ((Z.land o 0x2000 <> 0 \/ Z.land o 0x1fff <> 0)
      <-> (Z.land (b2z b6) 0x3f <> 0 \/ b2z b7 <> 0))
  /\ Z.shiftr (Z.land o 0xe000) 13 = b2z b6 / 32
  /\ Z.land o 0x1fff = 256 * (b2z b6 mod 32) + b2z b7.
Proof.
  pose proof (frag_bytes (b2z b6) (b2z b7) (b2z_range b6) (b2z_range b7)) as Hok.
  unfold frag_bytes_ok in Hok.
  apply andb_true_iff in Hok as [Hok H4]. apply andb_true_iff in Hok as [Hok H3].
  apply andb_true_iff in Hok as [H1 H2].
  apply Z.eqb_eq in H1, H3, H4. apply Bool.eqb_prop in H2.
  cbv zeta. unfold le16. rewrite H1. split; [reflexivity |].
  split; [| split; assumption].
  destruct (Z.eqb_spec (Z.land (256 * b2z b6 + b2z b7) 0x2000) 0);
    destruct (Z.eqb_spec (Z.land (256 * b2z b6 + b2z b7) 0x1fff) 0);
    destruct (Z.eqb_spec (Z.land (b2z b6) 0x3f) 0);
    destruct (Z.eqb_spec (b2z b7) 0); cbn in H2; try discriminate H2; tauto.
Qed.

(** X16: for a packet that reaches the fragment check, the check fires
    exactly when one of the low six bits of byte 6 (the more-fragments flag
    and the top of the offset) or byte 7 is not zero; the don't-fragment and
    the reserved flag, the top two bits of byte 6, never cause a
    rejection. *)
Theorem ip_input_fragment_bytes `{Collaborators} (h : heap) (data : list byte)
    (len : Z) (dev : net_device) :
  IP_HDR_SIZE_MIN <= len ->
  Z.shiftr (Z.land (vhl (hdr_of data)) 0xf0) 4 = IP_VERSION_IPV4 ->
  ntoh16 (total (hdr_of data)) <= len ->
  cksum16 data len 0 = 0 ->
  (ip_input h data len dev = [errorf "flagments does not support"]
   <-> Z.land (b2z (byte_at data 6)) 0x3f <> 0 \/ b2z (byte_at data 7) <> 0).
Proof.
  intros Hlen Hv Ht Hc.
  destruct (frag_bytes_spec (byte_at data 6) (byte_at data 7)) as (_ & Hiff & _).
  cbv zeta in Hiff.
  change (le16 (byte_at data 6) (byte_at data 7)) with (offset (hdr_of data)) in Hiff.
  rewrite <- Hiff. split.
  - intros E.
    destruct (Z.eq_dec (Z.land (ntoh16 (offset (hdr_of data))) 0x2000) 0) as [E1 | E1];
      [| now left].
    destruct (Z.eq_dec (Z.land (ntoh16 (offset (hdr_of data))) 0x1fff) 0) as [E2 | E2];
      [| now right].
    exfalso. revert E.
    rewrite (ip_input_validated h data len dev) by (repeat split; assumption).
    destruct (net_device_get_iface h dev NET_IFACE_FAMILY_IP); [| discriminate].
    cbv zeta. next_test; discriminate.
  - intros Hf. apply ip_input_fragment; assumption.
Qed.

(** X16 on the sample packet with the don't-fragment flag set: it is
    handed on. *)
Lemma ip_input_fragment_bytes_witness :
  @ip_input ref_collab sample_heap pkt_dont_fragment 20 sample_dev
  <> [errorf "flagments does not support"].
Proof.
  intros E.
  apply (@ip_input_fragment_bytes ref_collab sample_heap pkt_dont_fragment 20
           sample_dev) in E.
  - vm_compute in E. destruct E as [E | E]; apply E; reflexivity.
  - unfold IP_HDR_SIZE_MIN. lia.
  - vm_compute. reflexivity.
  - vm_compute. congruence.
  - vm_compute. reflexivity.
Defined.

(** ** [ip_dump]: the decoded fields *)

Lemma vhl_nibbles (b : byte) :
  Z.shiftr (Z.land (b2z b) 0xf0) 4 = b2z b / 16
  /\ Z.land (b2z b) 0x0f = b2z b mod 16
  /\ Z.shiftl (Z.land (b2z b) 0x0f) 2 mod 256 = 4 * (b2z b mod 16).
Proof. destruct b; repeat split. Qed.

(** X17: the header fields [ip_dump] prints split the bytes they come
    from without loss: the first byte is [16 * v + hl] with both below 16,
    the header size shown is [4 * hl], at most 60, so it never wraps in its
    [uint8_t]; the flags are below 8, the fragment offset below 8192, and
    together they make up the converted field. *)
Theorem ip_dump_fields (data : list byte) (len : Z) :
  let hdr := hdr_of data in
  ip_dump_lines data len !! 0%nat
  = Some ("        vhl: 0x%02x [v: %u, hl: %u, (%u)]"%string,
          [arg_u (vhl hdr); arg_u (dump_v hdr); arg_u (dump_hl hdr);
           arg_u (dump_hlen hdr)])
  /\ ip_dump_lines data len !! 4%nat
     = Some ("     offset: 0x%04x [flags=%x, offset=%u]"%string,
             [arg_u (ntoh16 (offset hdr)); arg_u (dump_flags hdr);
              arg_u (dump_fragoff hdr)])
  /\ vhl hdr = 16 * dump_v hdr + dump_hl hdr
  /\ 0 <= dump_v hdr <= 15 /\ 0 <= dump_hl hdr <= 15
  /\ dump_hlen hdr = 4 * dump_hl hdr /\ dump_hlen hdr <= 60
  /\ ntoh16 (offset hdr) = 8192 * dump_flags hdr + dump_fragoff hdr
  /\ 0 <= dump_flags hdr <= 7 /\ 0 <= dump_fragoff hdr <= 8191.
Proof.
  cbv zeta. split; [reflexivity |]. split; [reflexivity |].
  unfold dump_hlen, dump_v, dump_hl, dump_flags, dump_fragoff.
  change (vhl (hdr_of data)) with (b2z (byte_at data 0)).
  change (offset (hdr_of data)) with (le16 (byte_at data 6) (byte_at data 7)).
  destruct (vhl_nibbles (byte_at data 0)) as (-> & -> & ->).
  destruct (frag_bytes_spec (byte_at data 6) (byte_at data 7)) as (-> & _ & -> & ->).
  pose proof (b2z_range (byte_at data 0)).
  pose proof (b2z_range (byte_at data 6)).
  pose proof (b2z_range (byte_at data 7)).
  repeat split; Z.div_mod_to_equations; lia.
Qed.

Lemma more_fragments_bit (b : byte) :
  Z.land (b2z b) 0x3f = 0 -> (b2z b / 32) mod 2 = 0.
Proof. destruct b; intros E; try reflexivity; discriminate E. Qed.

(** X18: when [ip_input] hands a packet on, it asks for one header dump, of
    the declared total length, which is at most the length received; that
    dump shows version 4, fragment offset 0, flags with the more-fragments
    bit clear, and a payload of 0, because the length [ip_dump] takes the
    total from is the total itself. *)
Theorem ip_input_dump `{Collaborators} (h : heap) (data : list byte)
    (len : Z) (dev : net_device) :
  accepted (ip_input h data len dev) = true ->
  let hdr := hdr_of data in
  dumps_of (ip_input h data len dev) = [ip_dump_lines data (ntoh16 (total hdr))]
  /\ ntoh16 (total hdr) <= len
  /\ dump_v hdr = 4
  /\ dump_fragoff hdr = 0
  /\ dump_flags hdr mod 2 = 0
  /\ dump_payload hdr (ntoh16 (total hdr)) = 0.
Proof.
  intros Ha hdr. subst hdr.
  destruct (ip_input_accepted_inv h data len dev Ha)
    as ((_ & Hv & Ht & _ & Hmf & Hoff) & p & _ & _ & ->).
  split; [reflexivity |]. split; [exact Ht |]. split; [exact Hv |].
  split; [exact Hoff |]. split.
  - unfold dump_flags.
    destruct (frag_bytes_spec (byte_at data 6) (byte_at data 7)) as (_ & Hiff & Hfl & _).
    cbv zeta in Hiff, Hfl.
    change (le16 (byte_at data 6) (byte_at data 7)) with (offset (hdr_of data))
      in Hiff, Hfl.
    rewrite Hfl. apply more_fragments_bit.
    destruct (Z.eq_dec (Z.land (b2z (byte_at data 6)) 0x3f) 0) as [E | E];
      [exact E |].
    destruct (proj2 Hiff (or_introl E)) as [C | C]; contradiction.
  - unfold dump_payload. rewrite Z.sub_diag. reflexivity.
Qed.

(** X18 on the sample packet to 192.0.2.10. *)
Lemma ip_input_dump_witness :
  dumps_of (@ip_input ref_collab sample_heap pkt_unicast 20 sample_dev)
  = [ip_dump_lines pkt_unicast 20].
Proof.
  destruct (@ip_input_dump ref_collab sample_heap pkt_unicast 20 sample_dev)
    as (Hd & _); [vm_compute; reflexivity |].
  rewrite Hd. reflexivity.
Defined.
